(** * InteractiveCard: the tabbed card with its voice-and-text chat assistant

    A shallow embedding of [src/components/InteractiveCard.tsx]: the audio
    helper functions [decode] and [decodeAudioData], and the controller of the
    [InteractiveCard] component (its React state, its refs, and the handlers
    [init], [playAudioResponse], [handleSendMessage], [handleMicClick], the
    speech-recognition callbacks and the tab navigation).

    Conventions.
    - A JavaScript string is the list of its UTF-16 code units, each a [Z].
    - A [Uint8Array] and an [Int16Array] are lists of [Z]; a [Float32Array]
      is a list of rationals.  The only arithmetic done on samples is
      [int16 / 32768.0]: the quotient of a 16-bit integer by a power of two
      is exactly representable in binary32 and binary64, so the rational
      [v # 32768] is the value that is stored, not an approximation of it.
    - The hosted collaborators (chat session, speech synthesis) are not part
      of the repository: what they answer is an argument of the handlers.
    - An [await] is the point where a handler resumes with the answer of a
      collaborator.  A run of a handler records every setter and every
      outgoing call in program order, each with the state reached so far; the
      states recorded at the calls are the ones the component shows while the
      call is in flight. *)

From Stdlib Require Import ZArith List Bool Lia QArith String Ascii.
Import ListNotations.
Open Scope Z_scope.

(** ** JavaScript strings *)

Module JS.

Definition jsstring := list Z.

(** Truthiness of a string: every string but the empty one. *)
Definition truthy (s : jsstring) : bool :=
  match s with [] => false | _ :: _ => true end.

(** ECMAScript WhiteSpace and LineTerminator code units, the ones that
    [String.prototype.trim] removes. *)
Definition isWhiteSpace (c : Z) : bool :=
  ((9 <=? c) && (c <=? 13)) || (c =? 32) || (c =? 160) || (c =? 5760)
  || ((8192 <=? c) && (c <=? 8202)) || (c =? 8232) || (c =? 8233)
  || (c =? 8239) || (c =? 8287) || (c =? 12288) || (c =? 65279).

Fixpoint trimStart (s : jsstring) : jsstring :=
  match s with
  | [] => []
  | c :: r => if isWhiteSpace c then trimStart r else s
  end.

Definition trimEnd (s : jsstring) : jsstring := rev (trimStart (rev s)).

Definition trim (s : jsstring) : jsstring := trimEnd (trimStart s).

(** String literals: the source file is UTF-8, a JavaScript string holds
    UTF-16 code units.  [lit] decodes the one-, two- and three-byte UTF-8
    sequences of a literal (all the literals of the component are in the
    Basic Multilingual Plane). *)
Definition byte_of (a : ascii) : Z := Z.of_nat (nat_of_ascii a).

Fixpoint lit (s : string) : jsstring :=
  match s with
  | EmptyString => []
  | String a r =>
      let b0 := byte_of a in
      if b0 <? 128 then b0 :: lit r
      else if b0 <? 224 then
        match r with
        | String a1 r1 => ((b0 - 192) * 64 + (byte_of a1 - 128)) :: lit r1
        | EmptyString => [b0]
        end
      else
        match r with
        | String a1 (String a2 r2) =>
            ((b0 - 224) * 4096 + (byte_of a1 - 128) * 64 + (byte_of a2 - 128))
              :: lit r2
        | _ => [b0]
        end
  end.

End JS.
Import JS.

(** ** Audio helper functions *)

Module Audio.

(** *** The platform's [atob] and its inverse

    [atob] is the forgiving-base64 decode of the HTML standard: ASCII
    whitespace is removed, one or two trailing [=] are removed when the length
    is a multiple of four, a length of 1 modulo 4 or a character outside the
    alphabet is an error, and the 6-bit groups are accumulated in a buffer
    that is emptied every 24 bits. *)

Definition isAsciiWhitespace (c : Z) : bool :=
  (c =? 9) || (c =? 10) || (c =? 12) || (c =? 13) || (c =? 32).

Definition b64_value (c : Z) : option Z :=
  if (65 <=? c) && (c <=? 90) then Some (c - 65)
  else if (97 <=? c) && (c <=? 122) then Some (c - 71)
  else if (48 <=? c) && (c <=? 57) then Some (c + 4)
  else if c =? 43 then Some 62
  else if c =? 47 then Some 63
  else None.

Definition strip_padding (data : jsstring) : jsstring :=
  match rev data with
  | [] => data
  | c1 :: r =>
      if c1 =? 61 then
        match r with
        | [] => rev r
        | c2 :: r' => if c2 =? 61 then rev r' else rev r
        end
      else data
  end.

Fixpoint atob_loop (data : jsstring) (buffer bits : Z) : option jsstring :=
  match data with
  | [] =>
      Some (if bits =? 12 then [buffer / 16]
            else if bits =? 18 then [buffer / 4 / 256; (buffer / 4) mod 256]
            else [])
  | c :: rest =>
      match b64_value c with
      | None => None
      | Some v =>
          let buffer := buffer * 64 + v in
          let bits := bits + 6 in
          if bits =? 24 then
            option_map
              (fun out =>
                 buffer / 65536 :: (buffer / 256) mod 256 :: buffer mod 256 :: out)
              (atob_loop rest 0 0)
          else atob_loop rest buffer bits
      end
  end.

(** [None] stands for the [InvalidCharacterError] that [atob] throws. *)
Definition atob (data : jsstring) : option jsstring :=
  let data := filter (fun c => negb (isAsciiWhitespace c)) data in
  let data :=
    if (Nat.modulo (List.length data) 4 =? 0)%nat then strip_padding data
    else data in
  if (Nat.modulo (List.length data) 4 =? 1)%nat then None
  else atob_loop data 0 0.

(** The standard base64 encoding of a byte sequence, the inverse the
    payloads are produced with. *)
Definition b64_char (v : Z) : Z :=
  if v <? 26 then v + 65
  else if v <? 52 then v + 71
  else if v <? 62 then v - 4
  else if v =? 62 then 43
  else 47.

Fixpoint btoa_body (bytes : list Z) : jsstring :=
  match bytes with
  | [] => []
  | [a] => [b64_char (a / 4); b64_char (a mod 4 * 16)]
  | [a; b] =>
      [b64_char (a / 4); b64_char (a mod 4 * 16 + b / 16);
       b64_char (b mod 16 * 4)]
  | a :: b :: c :: rest =>
      b64_char (a / 4) :: b64_char (a mod 4 * 16 + b / 16)
        :: b64_char (b mod 16 * 4 + c / 64) :: b64_char (c mod 64)
        :: btoa_body rest
  end.

Fixpoint btoa_pad (bytes : list Z) : jsstring :=
  match bytes with
  | [] => []
  | [_] => [61; 61]
  | [_; _] => [61]
  | _ :: _ :: _ :: rest => btoa_pad rest
  end.

Definition btoa (bytes : list Z) : jsstring := btoa_body bytes ++ btoa_pad bytes.

(** *** [decode]

    [bytes[i] = binaryString.charCodeAt(i)]: a [Uint8Array] stores its
    argument modulo 256. *)
Definition decode (base64 : jsstring) : option (list Z) :=
  match atob base64 with
  | None => None
  | Some binaryString => Some (map (fun c => c mod 256) binaryString)
  end.

(** *** [decodeAudioData] *)

Record AudioBuffer := {
  numberOfChannels : nat;
  length : nat;
  sampleRate : Z;
  channels : list (list Q)
}.

(** [ctx.createBuffer].  The platform throws a [NotSupportedError] ([None])
    when the number of channels or the length is zero, or when an argument is
    outside its nominal range; the ranges are those every implementation of
    the Web Audio API supports (up to 32 channels, 8000 Hz to 96000 Hz).
    The channels of a new buffer are zero-filled. *)
Definition createBuffer (numChannels frameCount : nat) (rate : Z)
    : option AudioBuffer :=
  if (1 <=? numChannels)%nat && (numChannels <=? 32)%nat
     && (1 <=? frameCount)%nat && (8000 <=? rate) && (rate <=? 96000)
  then Some {| numberOfChannels := numChannels;
               length := frameCount;
               sampleRate := rate;
               channels := repeat (repeat 0%Q frameCount) numChannels |}
  else None.

Definition getChannelData (buffer : AudioBuffer) (channel : nat) : list Q :=
  nth channel (channels buffer) [].

(** The 16-bit value of two bytes, low byte first (typed arrays read in the
    byte order of the platform, little-endian on every browser target). *)
Definition int16_le (lo hi : Z) : Z :=
  let u := lo + 256 * hi in
  if u <? 32768 then u else u - 65536.

Fixpoint int16_view (bytes : list Z) : list Z :=
  match bytes with
  | lo :: hi :: rest => int16_le lo hi :: int16_view rest
  | _ => []
  end.

(** [new Int16Array(data.buffer)]: a [RangeError] ([None]) when the byte
    length is odd. *)
Definition Int16Array_of (bytes : list Z) : option (list Z) :=
  if Nat.even (List.length bytes) then Some (int16_view bytes) else None.

(** Assignment to an element of a typed array; out of range it does nothing. *)
Fixpoint assign {A} (l : list A) (i : nat) (v : A) : list A :=
  match l, i with
  | [], _ => []
  | _ :: r, O => v :: r
  | x :: r, S j => x :: assign r j v
  end.

(** The inner loop: [channelData[i] = dataInt16[i * numChannels + channel] / 32768.0]. *)
Definition fill_channel (dataInt16 : list Z) (numChannels channel frameCount : nat)
    (channelData : list Q) : list Q :=
  fold_left
    (fun cd i => assign cd i (nth (i * numChannels + channel) dataInt16 0 # 32768))
    (seq 0 frameCount) channelData.

(** The outer loop, over the channels of the buffer. *)
Definition fill_buffer (dataInt16 : list Z) (numChannels frameCount : nat)
    (buffer : AudioBuffer) : AudioBuffer :=
  fold_left
    (fun b channel =>
       {| numberOfChannels := numberOfChannels b;
          length := length b;
          sampleRate := sampleRate b;
          channels :=
            assign (channels b) channel
              (fill_channel dataInt16 numChannels channel frameCount
                 (getChannelData b channel)) |})
    (seq 0 numChannels) buffer.

(** [frameCount] is [dataInt16.length / numChannels]; [createBuffer] takes
    its integer part as the length, and the writes beyond it are out of
    range.  With no channel the quotient is not a finite number and
    [createBuffer] throws, as it does for the channel count itself. *)
Definition decodeAudioData (data : list Z) (rate : Z) (numChannels : nat)
    : option AudioBuffer :=
  match Int16Array_of data with
  | None => None
  | Some dataInt16 =>
      let frameCount := Nat.div (List.length dataInt16) numChannels in
      match createBuffer numChannels frameCount rate with
      | None => None
      | Some buffer => Some (fill_buffer dataInt16 numChannels frameCount buffer)
      end
  end.

(** *** The reference: a PCM payload and its de-interleave, from the words of
    the specification *)

(** The two bytes of a signed 16-bit sample, low byte first. *)
Definition pcm16le (samples : list Z) : list Z :=
  flat_map (fun v => [v mod 256; (v / 256) mod 256]) samples.

(** Single channel: sample [i] of the output is the [i]-th value over 32768. *)
Definition reference_deinterleave (samples : list Z) : list Q :=
  map (fun v => v # 32768) samples.

(** Ranges of a byte and of a signed 16-bit sample, and the base64 alphabet. *)
Definition byte (b : Z) : Prop := 0 <= b < 256.

Definition int16 (v : Z) : Prop := -32768 <= v <= 32767.

Definition is_b64 (c : Z) : bool :=
  match b64_value c with Some _ => true | None => false end.

End Audio.

(** ** The card controller *)

Module Card.

(** *** Data model *)

Inductive Role := user | model | system.

Record ChatMessage := { role : Role; content : jsstring }.

(** The objects of the hosted SDK and of the platform are handles. *)
Inductive Chat := chatSession.
Inductive GoogleGenAI := genAI.
Inductive AudioContext := audioContext (sampleRate : Z).

(** The recognition object of [init].  Its [onend] callback is an arrow
    function created inside the mount effect: [onend_userInput] is the value
    of the [userInput] binding that the callback closed over. *)
Record SpeechRecognition := {
  continuous : bool;
  interimResults : bool;
  lang : jsstring;
  onend_userInput : jsstring
}.

(** The [useState] cells and the [useRef] cells of [InteractiveCard]. *)
Record State := {
  activeTab : jsstring;
  chat : option Chat;
  chatHistory : list ChatMessage;
  userInput : jsstring;
  isLoading : bool;
  isListening : bool;
  isSpeaking : bool;
  aiRef : option GoogleGenAI;
  speechRecognitionRef : option SpeechRecognition;
  audioContextRef : option AudioContext
}.

Definition initialState : State :=
  {| activeTab := lit "implications";
     chat := None;
     chatHistory := [];
     userInput := [];
     isLoading := false;
     isListening := false;
     isSpeaking := false;
     aiRef := None;
     speechRecognitionRef := None;
     audioContextRef := None |}.

Definition with_activeTab (v : jsstring) (s : State) : State :=
  {| activeTab := v; chat := chat s; chatHistory := chatHistory s;
     userInput := userInput s; isLoading := isLoading s;
     isListening := isListening s; isSpeaking := isSpeaking s;
     aiRef := aiRef s; speechRecognitionRef := speechRecognitionRef s;
     audioContextRef := audioContextRef s |}.

Definition with_chat (v : option Chat) (s : State) : State :=
  {| activeTab := activeTab s; chat := v; chatHistory := chatHistory s;
     userInput := userInput s; isLoading := isLoading s;
     isListening := isListening s; isSpeaking := isSpeaking s;
     aiRef := aiRef s; speechRecognitionRef := speechRecognitionRef s;
     audioContextRef := audioContextRef s |}.

Definition with_chatHistory (v : list ChatMessage) (s : State) : State :=
  {| activeTab := activeTab s; chat := chat s; chatHistory := v;
     userInput := userInput s; isLoading := isLoading s;
     isListening := isListening s; isSpeaking := isSpeaking s;
     aiRef := aiRef s; speechRecognitionRef := speechRecognitionRef s;
     audioContextRef := audioContextRef s |}.

Definition with_userInput (v : jsstring) (s : State) : State :=
  {| activeTab := activeTab s; chat := chat s; chatHistory := chatHistory s;
     userInput := v; isLoading := isLoading s;
     isListening := isListening s; isSpeaking := isSpeaking s;
     aiRef := aiRef s; speechRecognitionRef := speechRecognitionRef s;
     audioContextRef := audioContextRef s |}.

Definition with_isLoading (v : bool) (s : State) : State :=
  {| activeTab := activeTab s; chat := chat s; chatHistory := chatHistory s;
     userInput := userInput s; isLoading := v;
     isListening := isListening s; isSpeaking := isSpeaking s;
     aiRef := aiRef s; speechRecognitionRef := speechRecognitionRef s;
     audioContextRef := audioContextRef s |}.

Definition with_isListening (v : bool) (s : State) : State :=
  {| activeTab := activeTab s; chat := chat s; chatHistory := chatHistory s;
     userInput := userInput s; isLoading := isLoading s;
     isListening := v; isSpeaking := isSpeaking s;
     aiRef := aiRef s; speechRecognitionRef := speechRecognitionRef s;
     audioContextRef := audioContextRef s |}.

Definition with_isSpeaking (v : bool) (s : State) : State :=
  {| activeTab := activeTab s; chat := chat s; chatHistory := chatHistory s;
     userInput := userInput s; isLoading := isLoading s;
     isListening := isListening s; isSpeaking := v;
     aiRef := aiRef s; speechRecognitionRef := speechRecognitionRef s;
     audioContextRef := audioContextRef s |}.

Definition with_aiRef (v : option GoogleGenAI) (s : State) : State :=
  {| activeTab := activeTab s; chat := chat s; chatHistory := chatHistory s;
     userInput := userInput s; isLoading := isLoading s;
     isListening := isListening s; isSpeaking := isSpeaking s;
     aiRef := v; speechRecognitionRef := speechRecognitionRef s;
     audioContextRef := audioContextRef s |}.

Definition with_speechRecognitionRef (v : option SpeechRecognition) (s : State)
    : State :=
  {| activeTab := activeTab s; chat := chat s; chatHistory := chatHistory s;
     userInput := userInput s; isLoading := isLoading s;
     isListening := isListening s; isSpeaking := isSpeaking s;
     aiRef := aiRef s; speechRecognitionRef := v;
     audioContextRef := audioContextRef s |}.

Definition with_audioContextRef (v : option AudioContext) (s : State) : State :=
  {| activeTab := activeTab s; chat := chat s; chatHistory := chatHistory s;
     userInput := userInput s; isLoading := isLoading s;
     isListening := isListening s; isSpeaking := isSpeaking s;
     aiRef := aiRef s; speechRecognitionRef := speechRecognitionRef s;
     audioContextRef := v |}.

(** *** What a handler does

    Every state setter and every call that leaves the component is recorded,
    in program order, with the state the setters have produced so far. *)
Inductive Effect :=
| preventDefault
| setActiveTab (id : jsstring)
| setChat
| setChatHistory (history : list ChatMessage)
| setUserInput (value : jsstring)
| setIsLoading (value : bool)
| setIsListening (value : bool)
| setIsSpeaking (value : bool)
| call_sendMessage (message : jsstring)
| call_generateContent (text : jsstring)
| source_start (buffer : Audio.AudioBuffer)
| requestSubmit
| recognition_start
| recognition_stop
| console_error (message : jsstring).

Record World := { st : State; log : list (Effect * State) }.

(** A handler either completes or throws; both leave a world behind. *)
Inductive Completion (A : Type) :=
| Normal (a : A)
| Throw.
Arguments Normal {A} a.
Arguments Throw {A}.

Definition M (A : Type) : Type := World -> Completion A * World.

Definition ret {A} (a : A) : M A := fun w => (Normal a, w).

Definition bind {A B} (m : M A) (k : A -> M B) : M B :=
  fun w =>
    match m w with
    | (Normal a, w') => k a w'
    | (Throw, w') => (Throw, w')
    end.

Definition throw {A} : M A := fun w => (Throw, w).

Definition get : M State := fun w => (Normal (st w), w).

(** [perform e f]: the step [e], whose effect on the state is [f]. *)
Definition perform (e : Effect) (f : State -> State) : M unit :=
  fun w =>
    let s := f (st w) in
    (Normal tt, {| st := s; log := log w ++ [(e, s)] |}).

Definition emit (e : Effect) : M unit := perform e (fun s => s).

(** Assignment to the [current] field of a ref. *)
Definition assign_ref (f : State -> State) : M unit :=
  fun w => (Normal tt, {| st := f (st w); log := log w |}).

Definition try_catch {A} (body handler : M A) : M A :=
  fun w =>
    match body w with
    | (Normal a, w') => (Normal a, w')
    | (Throw, w') => handler w'
    end.

Definition try_finally {A} (body : M A) (finalizer : M unit) : M A :=
  fun w =>
    match body w with
    | (c, w') =>
        match finalizer w' with
        | (Normal _, w'') => (c, w'')
        | (Throw, w'') => (Throw, w'')
        end
    end.

(** A value that a throwing call may fail to produce. *)
Definition orThrow {A} (o : option A) : M A :=
  match o with
  | Some a => ret a
  | None => throw
  end.

Definition run {A} (m : M A) (s : State) : World :=
  snd (m {| st := s; log := [] |}).

Declare Scope handler_scope.
Delimit Scope handler_scope with handler.
Notation "x <- c ;; k" := (bind c (fun x => k))
  (at level 61, c at next level, right associativity) : handler_scope.
Notation "c ;; k" := (bind c (fun _ => k))
  (at level 61, right associativity) : handler_scope.
Open Scope handler_scope.

(** The setters of the [useState] cells; the functional form
    [set(prev => f prev)] is applied to the pending state. *)
Definition do_setActiveTab (id : jsstring) : M unit :=
  perform (setActiveTab id) (with_activeTab id).

Definition do_setChat (c : Chat) : M unit :=
  perform setChat (with_chat (Some c)).

Definition do_setChatHistory (f : list ChatMessage -> list ChatMessage) : M unit :=
  fun w =>
    let h := f (chatHistory (st w)) in
    perform (setChatHistory h) (with_chatHistory h) w.

Definition do_setUserInput (f : jsstring -> jsstring) : M unit :=
  fun w =>
    let v := f (userInput (st w)) in
    perform (setUserInput v) (with_userInput v) w.

Definition do_setIsLoading (v : bool) : M unit :=
  perform (setIsLoading v) (with_isLoading v).

Definition do_setIsListening (v : bool) : M unit :=
  perform (setIsListening v) (with_isListening v).

Definition do_setIsSpeaking (v : bool) : M unit :=
  perform (setIsSpeaking v) (with_isSpeaking v).

(** *** The collaborators *)

(** What the hosted services answer.  [sendMessage message] is the [text] of
    the response, or [None] when the promise rejects.  [generateContent text]
    is [None] when the promise rejects, and otherwise the value of
    [response.candidates?.[0]?.content?.parts?.[0]?.inlineData?.data], which
    may be undefined ([Some None]). *)
Record Collaborators := {
  sendMessage : jsstring -> option jsstring;
  generateContent : jsstring -> option (option jsstring)
}.

(** What the platform offers when the component mounts: whether each
    constructor of [init] returns (or throws), and whether a
    [SpeechRecognition] constructor exists at all. *)
Record Platform := {
  new_GoogleGenAI : bool;
  chats_create : bool;
  SpeechRecognition_available : bool;
  new_SpeechRecognition : bool;
  new_AudioContext : bool
}.

Definition construct {A} (ok : bool) (a : A) : M A :=
  if ok then ret a else throw.

(** *** Fixed texts *)

Definition greeting : jsstring :=
  lit "¡Hola! Soy tu asistente de investigación, ejercita tu pensamiento cientifico. Esta es tu oportunidad de profundizar hacia donde la curiosidad te lleve. ¡Sorpréndete de cuánto puedes aprender y descubrir! ¿Qué te gustaría saber?".

Definition initErrorText : jsstring :=
  lit "No se pudo inicializar el asistente de IA. Verifica la configuración.".

Definition sendErrorText : jsstring :=
  lit "Lo siento, ocurrió un error al procesar tu solicitud.".

(** *** [init], the mount effect

    [render] is the state of the render whose effect this is: the closures
    created here see its values. *)
Definition init (p : Platform) (render : State) : M unit :=
  try_catch
    (ai <- construct (new_GoogleGenAI p) genAI ;;
     assign_ref (with_aiRef (Some ai)) ;;
     chatSession <- construct (chats_create p) chatSession ;;
     do_setChat chatSession ;;
     do_setChatHistory (fun _ => [{| role := model; content := greeting |}]) ;;
     (if SpeechRecognition_available p then
        recognition <-
          construct (new_SpeechRecognition p)
            {| continuous := true;
               interimResults := true;
               lang := lit "es-ES";
               onend_userInput := userInput render |} ;;
        assign_ref (with_speechRecognitionRef (Some recognition))
      else ret tt) ;;
     ctx <- construct (new_AudioContext p) (audioContext 24000) ;;
     assign_ref (with_audioContextRef (Some ctx)))
    (emit (console_error (lit "Error initializing services:")) ;;
     do_setChatHistory (fun _ => [{| role := system; content := initErrorText |}])).

(** The component after its first render and its mount effect. *)
Definition mount (p : Platform) : State := st (run (init p initialState) initialState).

(** Whether the [try] block of [init] runs to its end. *)
Definition init_succeeds (p : Platform) : bool :=
  new_GoogleGenAI p && chats_create p
  && (negb (SpeechRecognition_available p) || new_SpeechRecognition p)
  && new_AudioContext p.

(** *** Speech recognition callbacks *)

Record SpeechRecognitionResult := { isFinal : bool; transcript : jsstring }.

Record SpeechRecognitionEvent := {
  resultIndex : nat;
  results : list SpeechRecognitionResult
}.

Definition recognition_onresult (event : SpeechRecognitionEvent) : M unit :=
  let finalTranscript :=
    fold_left
      (fun acc r => if isFinal r then acc ++ transcript r else acc)
      (skipn (resultIndex event) (results event)) [] in
  if truthy finalTranscript
  then do_setUserInput (fun prev => prev ++ finalTranscript)
  else ret tt.

(** Strict equality [===] of two strings. *)
Definition streq (a b : jsstring) : bool :=
  if list_eq_dec Z.eq_dec a b then true else false.

(** [formRef.current] is the form of [ChatInterface], which is rendered in the
    chat tab only.  [requestSubmit] is the request to submit that form, whose
    [onSubmit] is [handleSendMessage]. *)
Definition formRef_current (s : State) : bool := streq (activeTab s) (lit "chat").

Definition recognition_onend (recognition : SpeechRecognition) : M unit :=
  do_setIsListening false ;;
  if truthy (trim (onend_userInput recognition)) then
    s <- get ;;
    if formRef_current s then emit requestSubmit else ret tt
  else ret tt.

(** *** [playAudioResponse] *)

Definition is_null {A} (o : option A) : bool :=
  match o with Some _ => false | None => true end.

Definition playAudioResponse (o : Collaborators) (text : jsstring) : M unit :=
  s <- get ;;
  if is_null (aiRef s) || is_null (audioContextRef s) then ret tt
  else
    do_setIsSpeaking true ;;
    try_catch
      (emit (call_generateContent text) ;;
       base64Audio <- orThrow (generateContent o text) ;;
       match base64Audio with
       | Some base64Audio =>
           if truthy base64Audio then
             data <- orThrow (Audio.decode base64Audio) ;;
             audioBuffer <- orThrow (Audio.decodeAudioData data 24000 1) ;;
             emit (source_start audioBuffer)
           else do_setIsSpeaking false
       | None => do_setIsSpeaking false
       end)
      (emit (console_error (lit "Error generating audio:")) ;;
       do_setIsSpeaking false).

(** [source.onended], the end of a playback. *)
Definition source_onended : M unit := do_setIsSpeaking false.

(** *** [handleSendMessage] *)

Definition handleSendMessage (o : Collaborators) : M unit :=
  emit preventDefault ;;
  s <- get ;;
  if negb (truthy (trim (userInput s))) || isLoading s || is_null (chat s)
     || isSpeaking s
  then ret tt
  else
    let userMessage := {| role := user; content := userInput s |} in
    do_setChatHistory (fun prev => prev ++ [userMessage]) ;;
    let currentInput := userInput s in
    do_setUserInput (fun _ => []) ;;
    do_setIsLoading true ;;
    try_finally
      (try_catch
         (emit (call_sendMessage currentInput) ;;
          text <- orThrow (sendMessage o currentInput) ;;
          let modelMessage := {| role := model; content := text |} in
          do_setChatHistory (fun prev => prev ++ [modelMessage]) ;;
          playAudioResponse o text)
         (emit (console_error (lit "Error sending message:")) ;;
          let errorMessage := {| role := system; content := sendErrorText |} in
          do_setChatHistory (fun prev => prev ++ [errorMessage])))
      (do_setIsLoading false).

(** *** [handleMicClick] *)

Definition handleMicClick : M unit :=
  s <- get ;;
  if is_null (speechRecognitionRef s) then ret tt
  else if isListening s then emit recognition_stop
  else
    do_setUserInput (fun _ => []) ;;
    emit recognition_start ;;
    do_setIsListening true.

(** *** Tabs and rendering *)

Inductive Icon := GearIcon | BeakerIcon | ChatBubbleIcon.

Record TabInfo := { id : jsstring; title : jsstring; icon : Icon }.

Definition tabsData : list TabInfo :=
  [ {| id := lit "implications"; title := lit "¿Qué implica?"; icon := GearIcon |};
    {| id := lit "thermodynamics"; title := lit "Perspectiva Termodinámica";
       icon := BeakerIcon |};
    {| id := lit "chat"; title := lit "Chatea con un experto";
       icon := ChatBubbleIcon |} ].

(** The [onClick] of a tab button. *)
Definition selectTab (tab : TabInfo) : M unit := do_setActiveTab (id tab).

Record ChatInterfaceProps := {
  props_chatHistory : list ChatMessage;
  props_isLoading : bool;
  props_userInput : jsstring;
  props_isChatReady : bool;
  props_isListening : bool;
  props_isSpeaking : bool
}.

Inductive Pane :=
| ImplicationsContent
| ThermodynamicsContent
| ChatInterface (props : ChatInterfaceProps).

(** The children of the content pane: each [cond && <X />] renders [X] or
    nothing. *)
Definition article (s : State) : list (option Pane) :=
  [ if streq (activeTab s) (lit "implications") then Some ImplicationsContent
    else None;
    if streq (activeTab s) (lit "thermodynamics") then Some ThermodynamicsContent
    else None;
    if streq (activeTab s) (lit "chat") then
      Some (ChatInterface
              {| props_chatHistory := chatHistory s;
                 props_isLoading := isLoading s;
                 props_userInput := userInput s;
                 props_isChatReady := negb (is_null (chat s));
                 props_isListening := isListening s;
                 props_isSpeaking := isSpeaking s |})
    else None ].

(** The [aria-selected] attribute of the tab buttons. *)
Definition nav (s : State) : list (TabInfo * bool) :=
  map (fun tab => (tab, streq (activeTab s) (id tab))) tabsData.

(** *** Events *)

Inductive Event :=
| onSubmit (o : Collaborators)
| onClickTab (tab : TabInfo)
| onChange (value : jsstring)
| onClickMic
| onresult (event : SpeechRecognitionEvent)
| onend
| onended.

Definition handler (e : Event) : M unit :=
  match e with
  | onSubmit o => handleSendMessage o
  | onClickTab tab => selectTab tab
  | onChange value => do_setUserInput (fun _ => value)
  | onClickMic => handleMicClick
  | onresult event =>
      s <- get ;;
      match speechRecognitionRef s with
      | Some _ => recognition_onresult event
      | None => ret tt
      end
  | onend =>
      s <- get ;;
      match speechRecognitionRef s with
      | Some recognition => recognition_onend recognition
      | None => ret tt
      end
  | onended => source_onended
  end.

(** An event the page can deliver: a tab button exists for the tabs of
    [tabsData] only. *)
Definition deliverable (e : Event) : Prop :=
  match e with
  | onClickTab tab => In tab tabsData
  | _ => True
  end.

(** The events are handled one after the other. *)
Fixpoint handle_all (events : list Event) (w : World) : World :=
  match events with
  | [] => w
  | e :: rest => handle_all rest (snd (handler e w))
  end.

Definition fresh (s : State) : World := {| st := s; log := [] |}.

(** The states of a mounted component. *)
Inductive reachable (p : Platform) : State -> Prop :=
| reachable_mount : reachable p (mount p)
| reachable_step s e :
    reachable p s -> deliverable e -> reachable p (st (run (handler e) s)).

(** *** Vocabulary of the properties *)

(** A submission that passes the guard of [handleSendMessage]. *)
Definition accepted (s : State) : bool :=
  negb (negb (truthy (trim (userInput s))) || isLoading s || is_null (chat s)
        || isSpeaking s).

(** The first turn of the transcript of a mounted component. *)
Definition initial_turn (p : Platform) : ChatMessage :=
  if init_succeeds p then {| role := model; content := greeting |}
  else {| role := system; content := initErrorText |}.

(** The effects of a run, in program order. *)
Definition effects (w : World) : list Effect := map fst (log w).

(** The outcome of a successful exchange: the transcript has gained the user
    turn and the assistant turn, the input is empty and no reply is awaited. *)
Definition exchanged (s : State) (reply : jsstring) (w : World) : Prop :=
  chatHistory (st w)
  = chatHistory s ++ [ {| role := user; content := userInput s |};
                       {| role := model; content := reply |} ]
  /\ userInput (st w) = []
  /\ isLoading (st w) = false.

(** No recorded step of a run has both [isLoading] and [isSpeaking] set. *)
Definition flags_exclusive (w : World) : Prop :=
  forall e s, In (e, s) (log w) -> isLoading s && isSpeaking s = false.

(** [a] occurs in [l], and every [b] of [l] comes after it. *)
Definition precedes (a b : Effect) (l : list Effect) : Prop :=
  exists l1 l2, l = l1 ++ a :: l2 /\ ~ In b l1.

Definition rendered (s : State) : nat :=
  List.length (filter (fun o => negb (is_null o)) (article s)).

Definition selected (s : State) : nat :=
  List.length (filter snd (nav s)).

(** Clicking the buttons of a list of tabs, one after the other. *)
Definition select_all (tabs : list TabInfo) (s : State) : State :=
  st (handle_all (map onClickTab tabs) (fresh s)).

End Card.

(** ** The form of [ChatInterface] *)

Module ChatView.
Import Card.

(** The props [InteractiveCard] passes to [ChatInterface]. *)
Definition chat_props (s : State) : ChatInterfaceProps :=
  {| props_chatHistory := chatHistory s;
     props_isLoading := isLoading s;
     props_userInput := userInput s;
     props_isChatReady := negb (is_null (chat s));
     props_isListening := isListening s;
     props_isSpeaking := isSpeaking s |}.

(** The attributes of the text input and of the microphone button that
    depend on the props. *)
Record FormView := {
  input_value : jsstring;
  input_placeholder : jsstring;
  input_disabled : bool;
  mic_disabled : bool;
  mic_label : jsstring;
  mic_ping : bool
}.

Definition form (props : ChatInterfaceProps) : FormView :=
  {| input_value := props_userInput props;
     input_placeholder :=
       if props_isListening props then lit "Escuchando..."
       else lit "Escribe o habla...";
     input_disabled :=
       props_isLoading props || negb (props_isChatReady props)
       || props_isSpeaking props;
     mic_disabled :=
       props_isLoading props || negb (props_isChatReady props)
       || props_isSpeaking props;
     mic_label :=
       if props_isListening props then lit "Detener grabación"
       else lit "Grabar pregunta";
     mic_ping := props_isListening props |}.

End ChatView.

(** ** Notions used in the statements *)

Module Notions.
Import Audio Card.

(** The text a result event contributes: the transcripts of its final
    results, from [resultIndex] on, in order. *)
Definition final_text (event : SpeechRecognitionEvent) : jsstring :=
  List.concat (map transcript
            (filter isFinal (skipn (resultIndex event) (results event)))).

(** Channel [channel] of interleaved 16-bit data: frame [i] is the value at
    [i * numChannels + channel], over 32768. *)
Definition deinterleaved (dataInt16 : list Z) (numChannels channel frameCount : nat)
    : list Q :=
  map (fun i => nth (i * numChannels + channel) dataInt16 0 # 32768)
      (seq 0 frameCount).

Definition unit_range (q : Q) : Prop := (-1 <= q)%Q /\ (q < 1)%Q.

(** The turns an event adds to the transcript of a state. *)
Definition turns_added (e : Event) (s : State) : nat :=
  match e with
  | onSubmit _ => if accepted s then 2 else 0
  | _ => 0
  end.

(** The part of the state that [init] sets up. *)
Definition session (s : State)
    : option Chat * option GoogleGenAI * option AudioContext
      * option SpeechRecognition :=
  (chat s, aiRef s, audioContextRef s, speechRecognitionRef s).

(** A platform on which every constructor of [init] returns. *)
Definition full_platform : Platform :=
  {| new_GoogleGenAI := true; chats_create := true;
     SpeechRecognition_available := true; new_SpeechRecognition := true;
     new_AudioContext := true |}.

End Notions.

(** ** Proof automation *)

(** Case analysis on the condition of a conditional. *)
Ltac case_if :=
  match goal with
  | |- context [if ?b then _ else _] =>
      match type of b with
      | bool => let E := fresh "E" in destruct b eqn:E
      end
  end.

(** Runs a handler as far as its conditions are known. *)
Ltac run_handler :=
  cbv beta iota zeta delta
    [Card.bind Card.get Card.ret Card.throw Card.emit Card.perform
     Card.assign_ref Card.try_catch Card.try_finally Card.orThrow
     Card.construct Card.do_setChat Card.do_setChatHistory
     Card.do_setUserInput Card.do_setIsLoading Card.do_setIsSpeaking
     Card.do_setIsListening Card.do_setActiveTab Card.fresh Card.run];
  cbn [Card.st Card.log fst snd app].

(** Reads the fields of an updated state. *)
Ltac state_fields :=
  cbn [Card.activeTab Card.chat Card.chatHistory Card.userInput Card.isLoading
       Card.isListening Card.isSpeaking Card.aiRef Card.speechRecognitionRef
       Card.audioContextRef
       Card.with_activeTab Card.with_chat Card.with_chatHistory
       Card.with_userInput Card.with_isLoading Card.with_isListening
       Card.with_isSpeaking Card.with_aiRef Card.with_speechRecognitionRef
       Card.with_audioContextRef].

Ltac frame_done :=
  eexists; split; [reflexivity|]; cbn [Card.st Card.log]; split;
  [try (left; reflexivity); right; eexists; reflexivity
  |rewrite <- ?app_assoc; eexists; reflexivity].

Ltac unchanged :=
  run_handler; cbn [snd Card.st]; state_fields;
  split; [exists []; now rewrite app_nil_r|congruence].

Ltac kept :=
  run_handler; cbn [snd Card.st]; unfold Notions.session; state_fields;
  repeat split; try reflexivity; try congruence;
  try (exists []; split; [now rewrite app_nil_r|reflexivity]).

(** ** Facts about the audio helpers *)

Module AudioFacts.
Import Audio.

(** Induction on a byte sequence, three bytes at a time. *)
Lemma list_ind3 {A} (P : list A -> Prop) :
  P [] -> (forall a, P [a]) -> (forall a b, P [a; b]) ->
  (forall a b c l, P l -> P (a :: b :: c :: l)) ->
  forall l, P l.
Proof.
  intros H0 H1 H2 H3.
  fix IH 1.
  intros [|a [|b [|c l]]].
  - exact H0.
  - apply H1.
  - apply H2.
  - apply H3, IH.
Qed.

Lemma b64_value_char v : 0 <= v < 64 -> b64_value (b64_char v) = Some v.
Proof.
  intros Hv. unfold b64_char.
  destruct (v <? 26) eqn:E1; [|destruct (v <? 52) eqn:E2;
    [|destruct (v <? 62) eqn:E3; [|destruct (v =? 62) eqn:E4]]];
  unfold b64_value;
  repeat case_if; try (f_equal; lia); exfalso; lia.
Qed.

Lemma is_b64_char v : 0 <= v < 64 -> is_b64 (b64_char v) = true.
Proof. intros Hv. unfold is_b64. now rewrite b64_value_char. Qed.

Lemma is_b64_plain c :
  is_b64 c = true -> isAsciiWhitespace c = false /\ (c =? 61) = false.
Proof.
  unfold is_b64, b64_value, isAsciiWhitespace.
  repeat case_if; intros H; try discriminate H; split; lia.
Qed.

Lemma sextets_in_range a b c :
  byte a -> byte b -> byte c ->
  0 <= a / 4 < 64 /\ 0 <= a mod 4 * 16 + b / 16 < 64 /\
  0 <= b mod 16 * 4 + c / 64 < 64 /\ 0 <= c mod 64 < 64 /\
  0 <= a mod 4 * 16 < 64 /\ 0 <= b mod 16 * 4 < 64.
Proof. unfold byte. intros. Z.to_euclidean_division_equations. lia. Qed.

Lemma btoa_body_alphabet bytes :
  Forall byte bytes -> Forall (fun c => is_b64 c = true) (btoa_body bytes).
Proof.
  induction bytes as [|a|a b|a b c l IH] using list_ind3; intros Hb; cbn [btoa_body].
  - constructor.
  - inversion_clear Hb as [|? ? Ha _].
    destruct (sextets_in_range a 0 0 Ha) as (? & _ & _ & _ & ? & _);
      try (unfold byte; lia).
    repeat constructor; now apply is_b64_char.
  - inversion_clear Hb as [|? ? Ha Hb']. inversion_clear Hb' as [|? ? Hb'' _].
    destruct (sextets_in_range a b 0 Ha Hb'') as (? & ? & _ & _ & _ & ?);
      try (unfold byte; lia).
    repeat constructor; now apply is_b64_char.
  - inversion_clear Hb as [|? ? Ha Hb']. inversion_clear Hb' as [|? ? Hb'' Hc].
    inversion_clear Hc as [|? ? Hc' Hl].
    destruct (sextets_in_range a b c Ha Hb'' Hc') as (? & ? & ? & ? & _ & _).
    repeat (constructor; [now apply is_b64_char|]). now apply IH.
Qed.

Lemma btoa_pad_cases bytes :
  btoa_pad bytes = [] \/ btoa_pad bytes = [61] \/ btoa_pad bytes = [61; 61].
Proof. induction bytes using list_ind3; cbn [btoa_pad]; auto. Qed.

Lemma mod4_step n : (Nat.modulo (S (S (S (S n)))) 4 = Nat.modulo n 4)%nat.
Proof.
  replace (S (S (S (S n)))) with (n + 1 * 4)%nat by lia.
  apply Nat.Div0.mod_add.
Qed.

Lemma btoa_length bytes : (Nat.modulo (List.length (btoa bytes)) 4 = 0)%nat.
Proof.
  unfold btoa.
  induction bytes as [|a|a b|a b c l IH] using list_ind3; try reflexivity.
  cbn [btoa_body btoa_pad app List.length]. now rewrite mod4_step.
Qed.

Lemma btoa_body_length bytes :
  (Nat.modulo (List.length (btoa_body bytes)) 4 =? 1)%nat = false.
Proof.
  induction bytes as [|a|a b|a b c l IH] using list_ind3; try reflexivity.
  cbn [btoa_body List.length]. now rewrite mod4_step.
Qed.

Lemma filter_all {A} (f : A -> bool) l :
  Forall (fun x => f x = true) l -> filter f l = l.
Proof.
  induction 1 as [|x l Hx _ IH]; cbn [filter]; [reflexivity|].
  now rewrite Hx, IH.
Qed.

Lemma btoa_no_whitespace bytes :
  Forall byte bytes ->
  filter (fun c => negb (isAsciiWhitespace c)) (btoa bytes) = btoa bytes.
Proof.
  intros Hb. apply filter_all. unfold btoa. apply Forall_app. split.
  - eapply Forall_impl; [|apply btoa_body_alphabet, Hb].
    intros c Hc. apply is_b64_plain in Hc. now rewrite (proj1 Hc).
  - destruct (btoa_pad_cases bytes) as [-> | [-> | ->]]; repeat constructor.
Qed.

Lemma strip_padding_btoa bytes :
  Forall byte bytes -> strip_padding (btoa bytes) = btoa_body bytes.
Proof.
  intros Hb. pose proof (btoa_body_alphabet bytes Hb) as Hbody.
  unfold btoa, strip_padding. rewrite rev_app_distr.
  assert (Hhead : forall c r, rev (btoa_body bytes) = c :: r -> (c =? 61) = false).
  { intros c r E. apply is_b64_plain.
    rewrite Forall_forall in Hbody. apply Hbody.
    apply in_rev. rewrite E. now left. }
  destruct (btoa_pad_cases bytes) as [-> | [-> | ->]]; cbn [rev app].
  - rewrite app_nil_r. destruct (rev (btoa_body bytes)) as [|c r] eqn:E;
      [reflexivity|]. now rewrite (Hhead c r eq_refl).
  - rewrite <- (rev_involutive (btoa_body bytes)) at 3.
    destruct (rev (btoa_body bytes)) as [|c r] eqn:E; cbn; [reflexivity|].
    now rewrite (Hhead c r eq_refl).
  - now rewrite rev_involutive.
Qed.

(** Four characters of the alphabet are three bytes. *)
Lemma atob_loop_group c0 c1 c2 c3 s0 s1 s2 s3 rest :
  b64_value c0 = Some s0 -> b64_value c1 = Some s1 ->
  b64_value c2 = Some s2 -> b64_value c3 = Some s3 ->
  atob_loop (c0 :: c1 :: c2 :: c3 :: rest) 0 0 =
  option_map
    (fun out =>
       let n := (((0 * 64 + s0) * 64 + s1) * 64 + s2) * 64 + s3 in
       n / 65536 :: (n / 256) mod 256 :: n mod 256 :: out)
    (atob_loop rest 0 0).
Proof.
  intros H0 H1 H2 H3. cbn [atob_loop]. rewrite H0, H1, H2, H3. reflexivity.
Qed.

Lemma pack_three a b c :
  byte a -> byte b -> byte c ->
  let n := (((0 * 64 + a / 4) * 64 + (a mod 4 * 16 + b / 16)) * 64
            + (b mod 16 * 4 + c / 64)) * 64 + c mod 64 in
  n / 65536 = a /\ (n / 256) mod 256 = b /\ n mod 256 = c.
Proof.
  intros Ha Hb Hc n. unfold byte in *.
  assert (En : n = a * 65536 + b * 256 + c).
  { subst n. Z.to_euclidean_division_equations. lia. }
  rewrite En. clear En n. repeat split; Z.to_euclidean_division_equations; lia.
Qed.

Lemma pack_two a b :
  byte a -> byte b ->
  let n := ((0 * 64 + a / 4) * 64 + (a mod 4 * 16 + b / 16)) * 64 + b mod 16 * 4 in
  n / 4 / 256 = a /\ (n / 4) mod 256 = b.
Proof.
  intros Ha Hb n. unfold byte in *.
  assert (En : n = (a * 256 + b) * 4).
  { subst n. Z.to_euclidean_division_equations. lia. }
  rewrite En. clear En n. rewrite Z.div_mul by lia.
  split; Z.to_euclidean_division_equations; lia.
Qed.

Lemma pack_one a :
  byte a ->
  ((0 * 64 + a / 4) * 64 + a mod 4 * 16) / 16 = a.
Proof.
  unfold byte. intros Ha.
  replace ((0 * 64 + a / 4) * 64 + a mod 4 * 16) with (a * 16).
  - apply Z.div_mul. lia.
  - Z.to_euclidean_division_equations. lia.
Qed.

Lemma atob_loop_btoa_body bytes :
  Forall byte bytes -> atob_loop (btoa_body bytes) 0 0 = Some bytes.
Proof.
  induction bytes as [|a|a b|a b c l IH] using list_ind3; intros Hb.
  - reflexivity.
  - inversion_clear Hb as [|? ? Ha _].
    destruct (sextets_in_range a 0 0 Ha) as (R0 & _ & _ & _ & R1 & _);
      try (unfold byte; lia).
    cbn [btoa_body atob_loop].
    rewrite (b64_value_char _ R0), (b64_value_char _ R1).
    cbn -[Z.div Z.modulo Z.mul Z.add]. now rewrite (pack_one a Ha).
  - inversion_clear Hb as [|? ? Ha Hb']. inversion_clear Hb' as [|? ? Hb'' _].
    destruct (sextets_in_range a b 0 Ha Hb'') as (R0 & R1 & _ & _ & _ & R2);
      try (unfold byte; lia).
    cbn [btoa_body atob_loop].
    rewrite (b64_value_char _ R0), (b64_value_char _ R1), (b64_value_char _ R2).
    cbn -[Z.div Z.modulo Z.mul Z.add].
    destruct (pack_two a b Ha Hb'') as [E1 E2]. cbv zeta in E1, E2.
    now rewrite E1, E2.
  - inversion_clear Hb as [|? ? Ha Hb']. inversion_clear Hb' as [|? ? Hb'' Hc].
    inversion_clear Hc as [|? ? Hc' Hl].
    destruct (sextets_in_range a b c Ha Hb'' Hc') as (R0 & R1 & R2 & R3 & _ & _).
    cbn [btoa_body].
    rewrite (atob_loop_group _ _ _ _ _ _ _ _ _
               (b64_value_char _ R0) (b64_value_char _ R1)
               (b64_value_char _ R2) (b64_value_char _ R3)).
    rewrite (IH Hl). cbn [option_map].
    destruct (pack_three a b c Ha Hb'' Hc') as (E1 & E2 & E3).
    cbv zeta in E1, E2, E3 |- *. now rewrite E1, E2, E3.
Qed.

(** [atob] inverts the standard encoding. *)
Lemma atob_btoa bytes : Forall byte bytes -> atob (btoa bytes) = Some bytes.
Proof.
  intros Hb. unfold atob. rewrite (btoa_no_whitespace bytes Hb).
  cbv zeta. rewrite (btoa_length bytes). cbn [Nat.eqb].
  rewrite (strip_padding_btoa bytes Hb), (btoa_body_length bytes).
  now apply atob_loop_btoa_body.
Qed.

Lemma decode_btoa bytes : Forall byte bytes -> decode (btoa bytes) = Some bytes.
Proof.
  intros Hb. unfold decode. rewrite (atob_btoa bytes Hb). f_equal.
  induction Hb as [|b l Hb _ IH]; cbn [map]; [reflexivity|].
  rewrite IH. f_equal. apply Z.mod_small. exact Hb.
Qed.


Lemma pcm16le_bytes samples : Forall byte (pcm16le samples).
Proof.
  induction samples as [|v l IH]; cbn [pcm16le flat_map app]; [constructor|].
  constructor; [|constructor; [|exact IH]]; unfold byte.
  - apply Z.mod_pos_bound. lia.
  - apply Z.mod_pos_bound. lia.
Qed.

Lemma pcm16le_even samples : Nat.even (List.length (pcm16le samples)) = true.
Proof.
  induction samples as [|v l IH]; [reflexivity|].
  cbn [pcm16le flat_map app List.length Nat.even]. exact IH.
Qed.

Lemma int16_le_split v : int16 v -> int16_le (v mod 256) ((v / 256) mod 256) = v.
Proof.
  unfold int16, int16_le. intros Hv. cbv zeta.
  pose proof (Z.div_mod v 256 ltac:(lia)) as Ev.
  pose proof (Z.mod_pos_bound v 256 ltac:(lia)) as Hr.
  assert (Hq : -128 <= v / 256 <= 127) by lia.
  assert (Ehi : (v / 256) mod 256 = v / 256 /\ 0 <= v / 256
                \/ (v / 256) mod 256 = v / 256 + 256 /\ v / 256 < 0).
  { destruct (Z_lt_le_dec (v / 256) 0) as [Hneg|Hpos].
    - right. split; [|exact Hneg]. symmetry.
      apply (Z.mod_unique_pos _ _ (-1)); lia.
    - left. split; [|exact Hpos]. apply Z.mod_small. lia. }
  destruct Ehi as [[-> Hs]|[-> Hs]]; case_if; lia.
Qed.

Lemma int16_view_pcm16le samples :
  Forall int16 samples -> int16_view (pcm16le samples) = samples.
Proof.
  induction 1 as [|v l Hv _ IH]; [reflexivity|].
  cbn [pcm16le flat_map app int16_view].
  rewrite (int16_le_split v Hv). f_equal. exact IH.
Qed.

Lemma assign_middle {A} (pre : list A) x suf v :
  assign (pre ++ x :: suf) (List.length pre) v = pre ++ v :: suf.
Proof. induction pre as [|y pre IH]; cbn; [reflexivity|]. now rewrite IH. Qed.

(** The loop over [i] overwrites the cells in order. *)
Lemma fill_from {A} (f : nat -> A) m : forall k pre suf,
  List.length pre = k -> List.length suf = m ->
  fold_left (fun cd i => assign cd i (f i)) (seq k m) (pre ++ suf)
  = pre ++ map f (seq k m).
Proof.
  induction m as [|m IH]; intros k pre suf Hpre Hsuf.
  - destruct suf; [reflexivity|discriminate].
  - destruct suf as [|x suf]; [discriminate|].
    cbn [seq fold_left map]. rewrite <- Hpre at 2. rewrite assign_middle.
    change (pre ++ f k :: suf) with (pre ++ [f k] ++ suf).
    rewrite app_assoc. rewrite IH.
    + now rewrite <- app_assoc.
    + rewrite length_app. cbn. lia.
    + now injection Hsuf.
Qed.

Lemma fill_channel_mono dataInt16 :
  fill_channel dataInt16 1 0 (List.length dataInt16)
    (repeat 0%Q (List.length dataInt16))
  = reference_deinterleave dataInt16.
Proof.
  unfold fill_channel, reference_deinterleave.
  pose proof (fill_from (fun i => nth (i * 1 + 0) dataInt16 0 # 32768)
                (List.length dataInt16) 0 [] (repeat 0%Q (List.length dataInt16))
                eq_refl (repeat_length _ _)) as Hfill.
  cbn [app] in Hfill. rewrite Hfill. clear Hfill. induction dataInt16 as [|v l IH]; [reflexivity|].
  cbn [List.length seq map]. f_equal. rewrite <- seq_shift, map_map.
  rewrite <- IH. apply map_ext. intros i.
  now replace (S i * 1 + 0)%nat with (S (i * 1 + 0)) by lia.
Qed.

(** Within the nominal ranges and with at least one frame, the platform
    creates the buffer. *)
Lemma createBuffer_nominal numChannels frameCount rate :
  (1 <= numChannels <= 32)%nat -> (1 <= frameCount)%nat ->
  8000 <= rate <= 96000 ->
  createBuffer numChannels frameCount rate
  = Some {| numberOfChannels := numChannels;
            length := frameCount;
            sampleRate := rate;
            channels := repeat (repeat 0%Q frameCount) numChannels |}.
Proof.
  intros [Hc1 Hc2] Hf [Hr1 Hr2]. unfold createBuffer.
  apply Nat.leb_le in Hc1, Hc2, Hf. apply Z.leb_le in Hr1, Hr2.
  now rewrite Hc1, Hc2, Hf, Hr1, Hr2.
Qed.

Lemma decodeAudioData_pcm16le samples :
  Forall int16 samples ->
  samples <> [] ->
  decodeAudioData (pcm16le samples) 24000 1 =
  Some {| numberOfChannels := 1;
          length := List.length samples;
          sampleRate := 24000;
          channels := [reference_deinterleave samples] |}.
Proof.
  intros Hs Hne. unfold decodeAudioData, Int16Array_of.
  rewrite pcm16le_even, (int16_view_pcm16le samples Hs), Nat.div_1_r.
  rewrite createBuffer_nominal;
    [|lia|destruct samples; [congruence|cbn; lia]|lia].
  unfold fill_buffer, getChannelData.
  cbn [seq fold_left repeat numberOfChannels length sampleRate channels nth assign].
  now rewrite fill_channel_mono.
Qed.

Lemma reference_in_range samples :
  Forall int16 samples ->
  Forall (fun q => (-1 <= q)%Q /\ (q < 1)%Q) (reference_deinterleave samples).
Proof.
  unfold reference_deinterleave. intros Hs. apply Forall_map.
  eapply Forall_impl; [|exact Hs]. unfold int16, Qle, Qlt. cbn. intros v Hv. lia.
Qed.

(** C6, amended.  A payload of [N] signed 16-bit samples, [N] at least 1,
    written low byte first and base64-encoded, is decoded by [decode] and
    [decodeAudioData] (24000 Hz, one channel) into a buffer of exactly [N]
    samples; sample [i] is the [i]-th 16-bit value divided by 32768, the
    channel equals the reference de-interleave computed from the samples,
    and every sample lies in [-1, 1). *)
Theorem decode_pcm16_matches_reference (samples : list Z) :
  Forall int16 samples ->
  samples <> [] ->
  exists (data : list Z) (buffer : AudioBuffer),
    decode (btoa (pcm16le samples)) = Some data
    /\ decodeAudioData data 24000 1 = Some buffer
    /\ numberOfChannels buffer = 1%nat
    /\ length buffer = List.length samples
    /\ List.length (getChannelData buffer 0) = List.length samples
    /\ (forall i, (i < List.length samples)%nat ->
          nth i (getChannelData buffer 0) 0%Q = (nth i samples 0 # 32768))
    /\ getChannelData buffer 0 = reference_deinterleave samples
    /\ Forall (fun q => (-1 <= q)%Q /\ (q < 1)%Q) (getChannelData buffer 0).
Proof.
  intros Hs Hne. eexists. eexists.
  split; [apply decode_btoa, pcm16le_bytes|].
  split; [apply decodeAudioData_pcm16le; [exact Hs|exact Hne]|].
  unfold getChannelData. cbn [numberOfChannels length channels nth].
  repeat split.
  - unfold reference_deinterleave. apply length_map.
  - intros i Hi. unfold reference_deinterleave.
    rewrite (nth_indep _ 0%Q (0 # 32768)) by now rewrite length_map.
    apply (map_nth (fun v => v # 32768)).
  - now apply reference_in_range.
Qed.

Lemma decode_pcm16_matches_reference_witness :
  Forall int16 [0; -1; 32767; -32768; 5]
  /\ [0; -1; 32767; -32768; 5] <> []
  /\ exists (data : list Z) (buffer : AudioBuffer),
    decode (btoa (pcm16le [0; -1; 32767; -32768; 5])) = Some data
    /\ decodeAudioData data 24000 1 = Some buffer
    /\ numberOfChannels buffer = 1%nat
    /\ length buffer = 5%nat
    /\ List.length (getChannelData buffer 0) = 5%nat
    /\ (forall i, (i < 5)%nat ->
          nth i (getChannelData buffer 0) 0%Q
          = (nth i [0; -1; 32767; -32768; 5] 0 # 32768))
    /\ getChannelData buffer 0 = reference_deinterleave [0; -1; 32767; -32768; 5]
    /\ Forall (fun q => (-1 <= q)%Q /\ (q < 1)%Q) (getChannelData buffer 0).
Proof.
  assert (H : Forall int16 [0; -1; 32767; -32768; 5])
    by (repeat constructor; unfold int16; lia).
  assert (Hne : [0; -1; 32767; -32768; 5] <> []) by discriminate.
  split; [exact H|]. split; [exact Hne|].
  exact (decode_pcm16_matches_reference _ H Hne).
Defined.

(** C6 as stated fails for a payload of no sample: its base64 text is the
    empty string, [decode] returns no byte, and [decodeAudioData] asks the
    platform for a buffer of length 0, which [createBuffer] refuses. *)
Lemma decode_empty_payload_throws :
  ~ (forall samples : list Z,
       Forall int16 samples ->
       exists (data : list Z) (buffer : AudioBuffer),
         decode (btoa (pcm16le samples)) = Some data
         /\ decodeAudioData data 24000 1 = Some buffer
         /\ numberOfChannels buffer = 1%nat
         /\ length buffer = List.length samples
         /\ List.length (getChannelData buffer 0) = List.length samples
         /\ (forall i, (i < List.length samples)%nat ->
               nth i (getChannelData buffer 0) 0%Q = (nth i samples 0 # 32768))
         /\ getChannelData buffer 0 = reference_deinterleave samples
         /\ Forall (fun q => (-1 <= q)%Q /\ (q < 1)%Q) (getChannelData buffer 0)).
Proof.
  intros H. destruct (H [] (Forall_nil _)) as (data & buffer & Hd & Hb & _).
  injection Hd as <-. discriminate Hb.
Qed.

End AudioFacts.


(** ** Facts about the controller *)

Module CardFacts.
Import Card.

Lemma trimStart_whitespace s : forallb isWhiteSpace s = true -> trimStart s = [].
Proof.
  induction s as [|c r IH]; cbn [forallb trimStart]; [reflexivity|].
  intros H. apply andb_prop in H. destruct H as [Hc Hr]. now rewrite Hc, IH.
Qed.

Lemma trim_whitespace s : forallb isWhiteSpace s = true -> trim s = [].
Proof. intros H. unfold trim. now rewrite trimStart_whitespace. Qed.

Lemma trimStart_head s c r : trimStart s = c :: r -> isWhiteSpace c = false.
Proof.
  induction s as [|x s IH]; cbn [trimStart]; [discriminate|].
  destruct (isWhiteSpace x) eqn:E; [exact IH|].
  intros H. injection H as <- _. exact E.
Qed.

Lemma trimStart_empty s : trimStart s = [] -> forallb isWhiteSpace s = true.
Proof.
  induction s as [|x s IH]; cbn [trimStart forallb]; [reflexivity|].
  destruct (isWhiteSpace x); [exact IH|discriminate].
Qed.

(** [trim] leaves nothing exactly of the strings made of whitespace. *)
Lemma trim_empty_iff s : trim s = [] <-> forallb isWhiteSpace s = true.
Proof.
  split; [|apply trim_whitespace].
  unfold trim, trimEnd. intros H. apply trimStart_empty.
  destruct (trimStart s) as [|c r] eqn:E; [reflexivity|].
  pose proof (trimStart_head s c r E) as Hc.
  assert (Hrev : trimStart (rev (c :: r)) = []).
  { destruct (trimStart (rev (c :: r))) as [|y l]; [reflexivity|].
    apply (f_equal (@List.length Z)) in H. rewrite length_rev in H.
    discriminate H. }
  apply trimStart_empty in Hrev. rewrite forallb_forall in Hrev.
  rewrite (Hrev c) in Hc; [discriminate Hc|]. apply in_rev.
  rewrite rev_involutive. now left.
Qed.

Lemma handleSendMessage_guard o s :
  negb (truthy (trim (userInput s))) || isLoading s || is_null (chat s)
    || isSpeaking s = true ->
  handleSendMessage o (fresh s)
  = (Normal tt, {| st := s; log := [(preventDefault, s)] |}).
Proof.
  intros G. unfold handleSendMessage. run_handler. now rewrite G.
Qed.

(** C3.  In every state, a submission whose input is empty or made of
    whitespace only, or that is made while [isLoading] (a reply is awaited) or
    [isSpeaking] (audio is playing) is set, does nothing: the handler returns
    with the state it started from, no turn is appended and no setter is
    called; calling [preventDefault] on the event is all it does. *)
Theorem rejected_submission_is_noop (o : Collaborators) (s : State) :
  forallb isWhiteSpace (userInput s) = true \/ isLoading s = true
    \/ isSpeaking s = true ->
  handleSendMessage o (fresh s)
  = (Normal tt, {| st := s; log := [(preventDefault, s)] |}).
Proof.
  intros H. apply handleSendMessage_guard.
  destruct H as [H | [H | H]].
  - now rewrite (trim_whitespace _ H).
  - rewrite H. now rewrite orb_true_r.
  - rewrite H. now rewrite orb_true_r.
Qed.

Lemma rejected_submission_is_noop_witness :
  (forallb isWhiteSpace (lit "  ") = true \/ false = true \/ false = true)
  /\ handleSendMessage
       {| sendMessage := fun _ => Some (lit "T");
          generateContent := fun _ => None |}
       (fresh (with_userInput (lit "  ") (with_chat (Some chatSession) initialState)))
     = (Normal tt,
        {| st := with_userInput (lit "  ") (with_chat (Some chatSession) initialState);
           log := [(preventDefault,
                    with_userInput (lit "  ")
                      (with_chat (Some chatSession) initialState))] |}).
Proof.
  assert (H : forallb isWhiteSpace (lit "  ") = true \/ false = true
              \/ false = true) by (left; reflexivity).
  split; [exact H|].
  exact (rejected_submission_is_noop
           {| sendMessage := fun _ => Some (lit "T");
              generateContent := fun _ => None |}
           (with_userInput (lit "  ") (with_chat (Some chatSession) initialState))
           H).
Defined.

(** C10.  While the chat session is not initialised ([chat] is null), a
    submission is rejected without a trace in the state: no user turn and no
    error turn is appended, no setter is called, so [isLoading] keeps its
    value. *)
Theorem uninitialized_chat_rejects (o : Collaborators) (s : State) :
  chat s = None ->
  handleSendMessage o (fresh s)
  = (Normal tt, {| st := s; log := [(preventDefault, s)] |}).
Proof.
  intros H. apply handleSendMessage_guard. rewrite H. cbn [is_null].
  now rewrite orb_true_r.
Qed.

Lemma uninitialized_chat_rejects_witness :
  handleSendMessage
    {| sendMessage := fun _ => Some (lit "T"); generateContent := fun _ => None |}
    (fresh (with_userInput (lit "hola")
              (mount {| new_GoogleGenAI := false; chats_create := true;
                        SpeechRecognition_available := true;
                        new_SpeechRecognition := true;
                        new_AudioContext := true |})))
  = (Normal tt,
     {| st := with_userInput (lit "hola")
                (mount {| new_GoogleGenAI := false; chats_create := true;
                          SpeechRecognition_available := true;
                          new_SpeechRecognition := true;
                          new_AudioContext := true |});
        log := [(preventDefault,
                 with_userInput (lit "hola")
                   (mount {| new_GoogleGenAI := false; chats_create := true;
                             SpeechRecognition_available := true;
                             new_SpeechRecognition := true;
                             new_AudioContext := true |}))] |}).
Proof.
  exact (uninitialized_chat_rejects
           {| sendMessage := fun _ => Some (lit "T");
              generateContent := fun _ => None |}
           (with_userInput (lit "hola")
              (mount {| new_GoogleGenAI := false; chats_create := true;
                        SpeechRecognition_available := true;
                        new_SpeechRecognition := true;
                        new_AudioContext := true |}))
           eq_refl).
Defined.

(** [playAudioResponse] never throws, and touches [isSpeaking] only. *)
Lemma playAudioResponse_frame o text w :
  exists w', playAudioResponse o text w = (Normal tt, w')
    /\ (st w' = st w \/ exists b, st w' = with_isSpeaking b (st w))
    /\ exists l, log w' = log w ++ l.
Proof.
  unfold playAudioResponse. run_handler.
  destruct (is_null (aiRef (st w)) || is_null (audioContextRef (st w))).
  { eexists. split; [reflexivity|]. split; [now left|].
    exists []. now rewrite app_nil_r. }
  destruct (generateContent o text) as [[b|]|]; run_handler; [|frame_done..].
  destruct (truthy b); [|frame_done].
  destruct (Audio.decode b) as [data|]; run_handler; [|frame_done].
  destruct (Audio.decodeAudioData data 24000 1) as [buf|]; run_handler; frame_done.
Qed.

(** With the client and the audio context in place, [playAudioResponse]
    first sets [isSpeaking] and calls the synthesis; what follows sets no
    [isLoading]. *)
Lemma playAudioResponse_starts o text w :
  is_null (aiRef (st w)) = false -> is_null (audioContextRef (st w)) = false ->
  exists w' tail,
    playAudioResponse o text w = (Normal tt, w')
    /\ log w'
       = log w ++ (setIsSpeaking true, with_isSpeaking true (st w))
           :: (call_generateContent text, with_isSpeaking true (st w)) :: tail
    /\ Forall (fun e => forall b, fst e <> setIsLoading b) tail
    /\ exists b, st w' = with_isSpeaking b (st w).
Proof.
  intros Hai Hctx. unfold playAudioResponse. run_handler. rewrite Hai, Hctx.
  cbn [orb].
  assert (Hno : forall e : Effect * State,
             (forall b, fst e <> setIsLoading b) ->
             Forall (fun e => forall b, fst e <> setIsLoading b) [e])
    by (intros; now repeat constructor).
  destruct (generateContent o text) as [[b|]|]; run_handler.
  - destruct (truthy b).
    + destruct (Audio.decode b) as [data|]; run_handler.
      * destruct (Audio.decodeAudioData data 24000 1) as [buf|]; run_handler.
        -- eexists. exists [(source_start buf, with_isSpeaking true (st w))].
           split; [reflexivity|]. cbn [st log]. rewrite <- !app_assoc.
           split; [reflexivity|]. split; [now apply Hno|]. now exists true.
        -- eexists. eexists. split; [reflexivity|]. cbn [st log].
           rewrite <- !app_assoc. split; [reflexivity|].
           split; [|now exists false]. repeat constructor; discriminate.
      * eexists. eexists. split; [reflexivity|]. cbn [st log].
        rewrite <- !app_assoc. split; [reflexivity|].
        split; [|now exists false]. repeat constructor; discriminate.
    + eexists. eexists. split; [reflexivity|]. cbn [st log].
      rewrite <- !app_assoc. split; [reflexivity|].
      split; [|now exists false]. repeat constructor; discriminate.
  - eexists. eexists. split; [reflexivity|]. cbn [st log].
    rewrite <- !app_assoc. split; [reflexivity|].
    split; [|now exists false]. repeat constructor; discriminate.
  - eexists. eexists. split; [reflexivity|]. cbn [st log].
    rewrite <- !app_assoc. split; [reflexivity|].
    split; [|now exists false]. repeat constructor; discriminate.
Qed.

Lemma accepted_guard s :
  accepted s = true ->
  negb (truthy (trim (userInput s))) || isLoading s || is_null (chat s)
    || isSpeaking s = false.
Proof. unfold accepted. intros H. now apply negb_true_iff in H. Qed.

(** C1, amended.  For every submission whose input still has a character
    after [trim], made while no reply is awaited, no audio is playing and the
    chat session is initialised: if [sendMessage] resolves with the text [T],
    the handler completes, the transcript has gained exactly the user turn
    with the submitted text followed by the assistant turn with content [T],
    the input is empty and [isLoading] is false again. *)
Theorem send_success_exchange (s : State) (o : Collaborators) (T : jsstring) :
  truthy (trim (userInput s)) = true ->
  isLoading s = false -> isSpeaking s = false -> chat s <> None ->
  sendMessage o (userInput s) = Some T ->
  exists w, handleSendMessage o (fresh s) = (Normal tt, w) /\ exchanged s T w.
Proof.
  intros Hin Hload Hspeak Hchat Hsend.
  unfold handleSendMessage. run_handler.
  rewrite Hin, Hload, Hspeak. destruct (chat s) as [c|]; [|congruence].
  cbn [negb orb is_null]. run_handler. rewrite Hsend. run_handler.
  match goal with
  | |- context [playAudioResponse ?a ?t ?w0] =>
      destruct (playAudioResponse_frame a t w0) as (w' & E & Hst & _); rewrite E
  end.
  cbn [st log] in Hst. eexists. split; [reflexivity|].
  unfold exchanged. cbn [st].
  destruct Hst as [-> | [b ->]]; state_fields; rewrite <- app_assoc;
    repeat split.
Qed.

Lemma send_success_exchange_witness :
  exists w,
    handleSendMessage
      {| sendMessage := fun _ => Some (lit "La entropia");
         generateContent := fun _ => Some None |}
      (fresh (with_userInput (lit " hola ") (with_chat (Some chatSession) initialState)))
    = (Normal tt, w)
    /\ exchanged
         (with_userInput (lit " hola ") (with_chat (Some chatSession) initialState))
         (lit "La entropia") w.
Proof.
  apply send_success_exchange; try reflexivity. discriminate.
Defined.

(** C1 as stated fails: an input made of a space is not empty, and the
    guard of [handleSendMessage] rejects it, so the transcript gains nothing. *)
Lemma send_whitespace_not_exchanged :
  ~ (forall (s : State) (o : Collaborators) (T : jsstring),
       userInput s <> [] ->
       isLoading s = false -> isSpeaking s = false -> chat s <> None ->
       sendMessage o (userInput s) = Some T ->
       exists w, handleSendMessage o (fresh s) = (Normal tt, w) /\ exchanged s T w).
Proof.
  intros H.
  destruct (H (with_userInput [32] (with_chat (Some chatSession) initialState))
              {| sendMessage := fun _ => Some (lit "T");
                 generateContent := fun _ => Some None |}
              (lit "T"))
    as (w & E & X & _); try reflexivity; try discriminate.
  injection E as <-. discriminate X.
Qed.

(** C2.  For every accepted submission whose [sendMessage] rejects, the
    handler completes, the transcript has gained the user turn followed by
    one system turn with the fixed error text, [isLoading] is false again,
    and [sendMessage] has been called once: the list of effects is the one
    given, with no second call. *)
Theorem send_failure_appends_error (s : State) (o : Collaborators) :
  accepted s = true ->
  sendMessage o (userInput s) = None ->
  exists w,
    handleSendMessage o (fresh s) = (Normal tt, w)
    /\ chatHistory (st w)
       = chatHistory s ++ [ {| role := user; content := userInput s |};
                            {| role := system; content := sendErrorText |} ]
    /\ isLoading (st w) = false
    /\ effects w
       = [ preventDefault;
           setChatHistory
             (chatHistory s ++ [ {| role := user; content := userInput s |} ]);
           setUserInput [];
           setIsLoading true;
           call_sendMessage (userInput s);
           console_error (lit "Error sending message:");
           setChatHistory
             (chatHistory s ++ [ {| role := user; content := userInput s |};
                                 {| role := system; content := sendErrorText |} ]);
           setIsLoading false ].
Proof.
  intros Hacc Hsend. unfold handleSendMessage. run_handler.
  rewrite (accepted_guard s Hacc). run_handler. rewrite Hsend. run_handler.
  eexists. split; [reflexivity|]. unfold effects. cbn [st log map fst].
  state_fields. rewrite <- app_assoc. repeat split.
Qed.

Lemma send_failure_appends_error_witness :
  exists w,
    handleSendMessage
      {| sendMessage := fun _ => None; generateContent := fun _ => None |}
      (fresh (with_userInput (lit "hola") (with_chat (Some chatSession) initialState)))
    = (Normal tt, w)
    /\ chatHistory (st w)
       = [ {| role := user; content := lit "hola" |};
           {| role := system; content := sendErrorText |} ]
    /\ isLoading (st w) = false
    /\ effects w
       = [ preventDefault;
           setChatHistory [ {| role := user; content := lit "hola" |} ];
           setUserInput [];
           setIsLoading true;
           call_sendMessage (lit "hola");
           console_error (lit "Error sending message:");
           setChatHistory
             [ {| role := user; content := lit "hola" |};
               {| role := system; content := sendErrorText |} ];
           setIsLoading false ].
Proof.
  exact (send_failure_appends_error
           (with_userInput (lit "hola") (with_chat (Some chatSession) initialState))
           {| sendMessage := fun _ => None; generateContent := fun _ => None |}
           eq_refl eq_refl).
Defined.


(** C5 as stated fails: after a successful reply [isSpeaking] is set and the
    synthesis is called while [isLoading] is still set; [isLoading] is cleared
    by the [finally] block, after [playAudioResponse] has returned. *)
Lemma reply_overlaps_playback :
  ~ (forall (s : State) (o : Collaborators) (T : jsstring),
       accepted s = true ->
       sendMessage o (userInput s) = Some T ->
       precedes (setIsLoading false) (setIsSpeaking true)
         (effects (run (handleSendMessage o) s))
       /\ flags_exclusive (run (handleSendMessage o) s)).
Proof.
  intros H.
  pose (s := with_userInput (lit "hola")
               (mount {| new_GoogleGenAI := true; chats_create := true;
                         SpeechRecognition_available := true;
                         new_SpeechRecognition := true;
                         new_AudioContext := true |})).
  pose (o := {| sendMessage := fun _ => Some (lit "T");
                generateContent := fun _ => Some None |}).
  destruct (H s o (lit "T") eq_refl eq_refl) as [_ X].
  specialize (X (call_generateContent (lit "T"))
                (with_isSpeaking true
                   (with_isLoading true
                      (with_chatHistory
                         (chatHistory s
                            ++ [ {| role := user; content := lit "hola" |};
                                 {| role := model; content := lit "T" |} ])
                         (with_userInput [] s))))).
  assert (F : true = false); [|discriminate F].
  apply X. vm_compute. do 7 right. left. reflexivity.
Qed.

(** C5, amended.  On every successful reply, with the client and the audio
    context in place, the steps are in this order: the assistant turn is
    appended, [isSpeaking] is set, the synthesis is called, the rest of
    [playAudioResponse] runs, and only then [isLoading] is cleared, as the
    last step; at the call of the synthesis both [isLoading] and [isSpeaking]
    are set. *)
Theorem reply_then_playback_order (s : State) (o : Collaborators) (T : jsstring) :
  accepted s = true ->
  is_null (aiRef s) = false -> is_null (audioContextRef s) = false ->
  sendMessage o (userInput s) = Some T ->
  exists (during : State) (tail : list Effect),
    effects (run (handleSendMessage o) s)
    = [ preventDefault;
        setChatHistory
          (chatHistory s ++ [ {| role := user; content := userInput s |} ]);
        setUserInput [];
        setIsLoading true;
        call_sendMessage (userInput s);
        setChatHistory
          (chatHistory s ++ [ {| role := user; content := userInput s |};
                              {| role := model; content := T |} ]);
        setIsSpeaking true;
        call_generateContent T ]
      ++ tail ++ [ setIsLoading false ]
    /\ (forall b, ~ In (setIsLoading b) tail)
    /\ In (call_generateContent T, during) (log (run (handleSendMessage o) s))
    /\ isLoading during = true /\ isSpeaking during = true.
Proof.
  intros Hacc Hai Hctx Hsend. unfold handleSendMessage, effects. run_handler.
  rewrite (accepted_guard s Hacc). run_handler. rewrite Hsend. run_handler.
  match goal with
  | |- context [playAudioResponse ?a ?t ?w0] =>
      destruct (playAudioResponse_starts a t w0 Hai Hctx)
        as (w' & tail & E & Hlog & Htail & _); rewrite E
  end.
  cbn [st log] in Hlog |- *. rewrite Hlog. cbn [snd st log].
  eexists. exists (map fst tail). split; [|split; [|split]].
  - rewrite !map_app. cbn [map fst app]. state_fields.
    rewrite <- !app_assoc. reflexivity.
  - intros b Hin. apply in_map_iff in Hin. destruct Hin as (e & He & Hin).
    rewrite Forall_forall in Htail. exact (Htail e Hin b He).
  - apply in_or_app. left. do 7 right. left. reflexivity.
  - state_fields. split; reflexivity.
Qed.

Lemma reply_then_playback_order_witness :
  exists (during : State) (tail : list Effect),
    effects
      (run (handleSendMessage
              {| sendMessage := fun _ => Some (lit "T");
                 generateContent := fun _ => Some None |})
         (with_userInput (lit "hola")
            (mount {| new_GoogleGenAI := true; chats_create := true;
                      SpeechRecognition_available := true;
                      new_SpeechRecognition := true;
                      new_AudioContext := true |})))
    = [ preventDefault;
        setChatHistory
          [ {| role := model; content := greeting |};
            {| role := user; content := lit "hola" |} ];
        setUserInput [];
        setIsLoading true;
        call_sendMessage (lit "hola");
        setChatHistory
          [ {| role := model; content := greeting |};
            {| role := user; content := lit "hola" |};
            {| role := model; content := lit "T" |} ];
        setIsSpeaking true;
        call_generateContent (lit "T") ]
      ++ tail ++ [ setIsLoading false ]
    /\ (forall b, ~ In (setIsLoading b) tail)
    /\ In (call_generateContent (lit "T"), during)
         (log
            (run (handleSendMessage
                    {| sendMessage := fun _ => Some (lit "T");
                       generateContent := fun _ => Some None |})
               (with_userInput (lit "hola")
                  (mount {| new_GoogleGenAI := true; chats_create := true;
                            SpeechRecognition_available := true;
                            new_SpeechRecognition := true;
                            new_AudioContext := true |}))))
    /\ isLoading during = true /\ isSpeaking during = true.
Proof.
  exact (reply_then_playback_order
           (with_userInput (lit "hola")
              (mount {| new_GoogleGenAI := true; chats_create := true;
                        SpeechRecognition_available := true;
                        new_SpeechRecognition := true;
                        new_AudioContext := true |}))
           {| sendMessage := fun _ => Some (lit "T");
              generateContent := fun _ => Some None |}
           (lit "T") eq_refl eq_refl eq_refl eq_refl).
Defined.

(** C8.  When the synthesis is invoked (client and audio context in place)
    and rejects, or answers without a payload (undefined, or the empty
    string), [playAudioResponse] completes with [isSpeaking] false, nothing
    else of the state changed: the transcript, and with it the text of the
    assistant, is as it was; no audio source is started. *)
Theorem synthesis_failure_is_silent (o : Collaborators) (text : jsstring) (w : World) :
  is_null (aiRef (st w)) = false -> is_null (audioContextRef (st w)) = false ->
  generateContent o text = None \/ generateContent o text = Some None
    \/ generateContent o text = Some (Some []) ->
  exists w',
    playAudioResponse o text w = (Normal tt, w')
    /\ st w' = with_isSpeaking false (st w)
    /\ isSpeaking (st w') = false
    /\ chatHistory (st w') = chatHistory (st w)
    /\ (exists l, log w' = log w ++ l
                  /\ forall buffer, ~ In (source_start buffer) (map fst l)).
Proof.
  intros Hai Hctx Hsyn. unfold playAudioResponse. run_handler.
  rewrite Hai, Hctx. cbn [orb].
  destruct Hsyn as [-> | [-> | ->]]; run_handler;
    (eexists; split; [reflexivity|]; cbn [st log]; state_fields;
     repeat split; rewrite <- ?app_assoc; eexists; split; [reflexivity|];
     cbn [app map fst]; intros buffer Hin;
     repeat (destruct Hin as [Hin|Hin]; [discriminate Hin|]); exact Hin).
Qed.

Lemma synthesis_failure_is_silent_witness :
  exists w',
    playAudioResponse
      {| sendMessage := fun _ => None; generateContent := fun _ => None |}
      (lit "T")
      (fresh (mount {| new_GoogleGenAI := true; chats_create := true;
                       SpeechRecognition_available := false;
                       new_SpeechRecognition := true;
                       new_AudioContext := true |}))
    = (Normal tt, w')
    /\ st w'
       = with_isSpeaking false
           (st (fresh (mount {| new_GoogleGenAI := true; chats_create := true;
                                SpeechRecognition_available := false;
                                new_SpeechRecognition := true;
                                new_AudioContext := true |})))
    /\ isSpeaking (st w') = false
    /\ chatHistory (st w')
       = chatHistory
           (st (fresh (mount {| new_GoogleGenAI := true; chats_create := true;
                                SpeechRecognition_available := false;
                                new_SpeechRecognition := true;
                                new_AudioContext := true |})))
    /\ (exists l,
          log w'
          = log (fresh (mount {| new_GoogleGenAI := true; chats_create := true;
                                 SpeechRecognition_available := false;
                                 new_SpeechRecognition := true;
                                 new_AudioContext := true |})) ++ l
          /\ forall buffer, ~ In (source_start buffer) (map fst l)).
Proof.
  apply synthesis_failure_is_silent; [reflexivity|reflexivity|left; reflexivity].
Defined.

(** *** The transcript of a mounted component *)

Lemma mount_transcript p : chatHistory (mount p) = [initial_turn p].
Proof. destruct p as [[] [] [] [] []]; vm_compute; reflexivity. Qed.

Lemma mount_recognition p r :
  speechRecognitionRef (mount p) = Some r -> onend_userInput r = [].
Proof.
  destruct p as [[] [] [] [] []]; vm_compute; intros H; try discriminate H;
    now injection H as <-.
Qed.

(** [init] reports an error exactly when its [try] block does not complete. *)
Lemma init_succeeds_spec p :
  init_succeeds p = true
  <-> ~ In (console_error (lit "Error initializing services:"))
          (effects (run (init p initialState) initialState)).
Proof.
  destruct p as [[] [] [] [] []]; vm_compute; split; intros H;
    try reflexivity; try discriminate H.
  all: try (intros F; repeat (destruct F as [F|F]; [discriminate F|]); exact F).
  all: exfalso; apply H; repeat ((left; reflexivity) || right).
Qed.

(** A handler appends to the transcript and leaves the recognition object
    alone. *)
Lemma handleSendMessage_frame o s :
  (exists extra,
     chatHistory (st (run (handleSendMessage o) s)) = chatHistory s ++ extra)
  /\ speechRecognitionRef (st (run (handleSendMessage o) s))
     = speechRecognitionRef s.
Proof.
  unfold handleSendMessage. run_handler.
  destruct (negb (truthy (trim (userInput s))) || isLoading s
            || is_null (chat s) || isSpeaking s).
  { cbn [snd st]. split; [exists []; now rewrite app_nil_r|reflexivity]. }
  run_handler. destruct (sendMessage o (userInput s)) as [T|]; run_handler.
  - match goal with
    | |- context [playAudioResponse ?a ?t ?w0] =>
        destruct (playAudioResponse_frame a t w0) as (w' & E & Hst & _);
          rewrite E
    end.
    cbn [snd st log] in Hst |- *.
    destruct Hst as [-> | [b ->]]; state_fields; rewrite <- app_assoc;
      (split; [eexists; reflexivity|reflexivity]).
  - cbn [snd st]. state_fields. rewrite <- app_assoc.
    split; [eexists; reflexivity|reflexivity].
Qed.

Lemma handler_frame e s :
  (exists extra, chatHistory (st (run (handler e) s)) = chatHistory s ++ extra)
  /\ speechRecognitionRef (st (run (handler e) s)) = speechRecognitionRef s.
Proof.
  destruct e as [o|tab|value| |event| | ]; cbn [handler].
  - apply handleSendMessage_frame.
  - unfold selectTab. unchanged.
  - unchanged.
  - unfold handleMicClick. run_handler.
    destruct (is_null (speechRecognitionRef s)); [unchanged|].
    destruct (isListening s); unchanged.
  - run_handler. destruct (speechRecognitionRef s) eqn:E; [|unchanged].
    unfold recognition_onresult. case_if; unchanged.
  - run_handler. destruct (speechRecognitionRef s) as [r|] eqn:E; [|unchanged].
    unfold recognition_onend. run_handler.
    destruct (truthy (trim (onend_userInput r))); [|unchanged].
    run_handler. case_if; unchanged.
  - unfold source_onended. unchanged.
Qed.

(** C9.  The mount effect leaves a transcript of exactly one turn, the
    greeting of the assistant when [init] succeeds and the system error turn
    when it fails; in every state reachable from there that turn is still the
    first of the transcript. *)
Theorem transcript_begins_with_initial_turn (p : Platform) (s : State) :
  reachable p s ->
  chatHistory (mount p) = [initial_turn p]
  /\ exists rest, chatHistory s = initial_turn p :: rest.
Proof.
  intros Hr. split; [apply mount_transcript|].
  induction Hr as [|s e _ [rest IH] _].
  - exists []. apply mount_transcript.
  - destruct (handler_frame e s) as [[extra E] _].
    exists (rest ++ extra). now rewrite E, IH.
Qed.

Lemma transcript_begins_with_initial_turn_witness :
  chatHistory
    (mount {| new_GoogleGenAI := true; chats_create := true;
              SpeechRecognition_available := true;
              new_SpeechRecognition := true; new_AudioContext := false |})
  = [ {| role := system; content := initErrorText |} ]
  /\ exists rest,
       chatHistory
         (st (run (handler
                     (onSubmit {| sendMessage := fun _ => Some (lit "T");
                                  generateContent := fun _ => None |}))
                (st (run (handler (onChange (lit "hola")))
                       (mount {| new_GoogleGenAI := true; chats_create := true;
                                 SpeechRecognition_available := true;
                                 new_SpeechRecognition := true;
                                 new_AudioContext := false |})))))
       = {| role := system; content := initErrorText |} :: rest.
Proof.
  apply (transcript_begins_with_initial_turn
           {| new_GoogleGenAI := true; chats_create := true;
              SpeechRecognition_available := true;
              new_SpeechRecognition := true; new_AudioContext := false |}).
  apply reachable_step; [|exact I].
  apply reachable_step; [|exact I].
  apply reachable_mount.
Defined.

(** *** The stale [userInput] of [onend] *)

Lemma reachable_recognition p s :
  reachable p s ->
  forall r, speechRecognitionRef s = Some r -> onend_userInput r = [].
Proof.
  induction 1 as [|s e _ IH _]; intros r Hr.
  - now apply (mount_recognition p).
  - apply IH. now rewrite <- (proj2 (handler_frame e s)).
Qed.

(** In no state of a mounted component does the end of a capture submit the
    form. *)
Lemma onend_never_requests_submit p s :
  reachable p s -> ~ In requestSubmit (effects (run (handler onend) s)).
Proof.
  intros Hr. cbn [handler]. unfold effects. run_handler.
  destruct (speechRecognitionRef s) as [r|] eqn:E; [|intros []].
  unfold recognition_onend. run_handler.
  rewrite (reachable_recognition p s Hr r E). cbn.
  intros [F|[]]. discriminate F.
Qed.

(** C4, on the code.  Mounted on a platform where everything is available,
    with the chat tab shown: a capture that delivers the final segments
    [hola ] and [mundo] and then ends leaves the input at [hola mundo] and
    clears [isListening], and submits nothing: [onend] tests the [userInput]
    of the first render, which is empty. *)
Theorem capture_end_does_not_submit :
  let okPlatform :=
    {| new_GoogleGenAI := true; chats_create := true;
       SpeechRecognition_available := true; new_SpeechRecognition := true;
       new_AudioContext := true |} in
  let chatTab :=
    {| id := lit "chat"; title := lit "Chatea con un experto";
       icon := ChatBubbleIcon |} in
  let hola := {| isFinal := true; transcript := lit "hola " |} in
  let mundo := {| isFinal := true; transcript := lit "mundo" |} in
  let w :=
    handle_all
      [ onClickTab chatTab;
        onClickMic;
        onresult {| resultIndex := 0; results := [hola] |};
        onresult {| resultIndex := 1; results := [hola; mundo] |};
        onend ]
      (fresh (mount okPlatform)) in
  In chatTab tabsData
  /\ userInput (st w) = lit "hola mundo"
  /\ truthy (trim (userInput (st w))) = true
  /\ isListening (st w) = false
  /\ formRef_current (st w) = true
  /\ effects w
     = [ setActiveTab (lit "chat");
         setUserInput [];
         recognition_start;
         setIsListening true;
         setUserInput (lit "hola ");
         setUserInput (lit "hola mundo");
         setIsListening false ]
  /\ ~ In requestSubmit (effects w)
  /\ ~ In (call_sendMessage (lit "hola mundo")) (effects w).
Proof.
  cbv zeta. split; [right; right; left; reflexivity|].
  repeat (split; [vm_compute; reflexivity|]).
  split; vm_compute; intros F;
    repeat (destruct F as [F|F]; [discriminate F|]); exact F.
Qed.

(** *** Tabs *)

Lemma select_all_fold tabs : forall w,
  st (handle_all (map onClickTab tabs) w)
  = fold_left (fun s tab => with_activeTab (id tab) s) tabs (st w).
Proof.
  induction tabs as [|tab tabs IH]; intros w; [reflexivity|].
  cbn [map handle_all fold_left handler]. rewrite IH. reflexivity.
Qed.

Lemma select_all_active tabs : forall s0,
  Forall (fun tab => In tab tabsData) tabs ->
  In (activeTab s0) (map id tabsData) ->
  In (activeTab (fold_left (fun s tab => with_activeTab (id tab) s) tabs s0))
     (map id tabsData)
  /\ fold_left (fun s tab => with_activeTab (id tab) s) tabs s0
     = with_activeTab
         (activeTab (fold_left (fun s tab => with_activeTab (id tab) s) tabs s0))
         s0.
Proof.
  induction tabs as [|tab tabs IH]; intros s0 Htabs H0; cbn [fold_left].
  - split; [exact H0|]. now destruct s0.
  - inversion_clear Htabs as [|? ? Htab Hrest].
    destruct (IH (with_activeTab (id tab) s0) Hrest) as [IH1 IH2].
    + cbn [activeTab with_activeTab]. now apply in_map.
    + split; [exact IH1|]. rewrite IH2 at 1. reflexivity.
Qed.

Lemma valid_tab_exclusive s :
  In (activeTab s) (map id tabsData) ->
  selected s = 1%nat /\ rendered s = 1%nat.
Proof.
  unfold selected, rendered, nav, article. intros H.
  cbn [map tabsData id] in H.
  destruct H as [<- | [<- | [<- | []]]]; split; vm_compute; reflexivity.
Qed.

Lemma last_cons {A} (l : list A) : forall a d, last (a :: l) d = last l a.
Proof.
  induction l as [|b l IH]; intros a d; [reflexivity|].
  change (last (a :: b :: l) d) with (last (b :: l) d).
  now rewrite !IH.
Qed.

(** After a sequence of clicks the active tab is the last one clicked. *)
Lemma select_all_last tabs : forall s0,
  activeTab (fold_left (fun s tab => with_activeTab (id tab) s) tabs s0)
  = last (map id tabs) (activeTab s0).
Proof.
  induction tabs as [|tab tabs IH]; intros s0; [reflexivity|].
  cbn [fold_left map]. rewrite IH, last_cons. reflexivity.
Qed.

(** With a valid active tab, the selected button and the rendered pane are
    those of the active tab. *)
Lemma valid_tab_shown s :
  In (activeTab s) (map id tabsData) ->
  map (fun button => id (fst button)) (filter snd (nav s)) = [activeTab s]
  /\ (activeTab s = lit "implications"
      /\ article s = [Some ImplicationsContent; None; None]
      \/ activeTab s = lit "thermodynamics"
         /\ article s = [None; Some ThermodynamicsContent; None]
      \/ activeTab s = lit "chat"
         /\ article s = [None; None; Some (ChatInterface (ChatView.chat_props s))]).
Proof.
  intros H. cbn [map tabsData id] in H. unfold nav, article, ChatView.chat_props.
  destruct H as [H | [H | [H | []]]]; rewrite <- H; split;
    try (vm_compute; reflexivity).
  - left. split; reflexivity.
  - right. left. split; reflexivity.
  - right. right. split; reflexivity.
Qed.

(** C7.  The default tab is the first of [tabsData], [implications].  After
    any sequence of clicks on the three tab buttons, from any state whose
    active tab is one of the three: the active tab is the last one clicked;
    exactly one button is selected, the one of the active tab; exactly one
    pane is rendered, the one of the active tab, and the places of the two
    other panes render nothing; and the state differs from the initial one
    in [activeTab] only. *)
Theorem tab_selection_exclusive (s0 : State) (tabs : list TabInfo) :
  Forall (fun tab => In tab tabsData) tabs ->
  In (activeTab s0) (map id tabsData) ->
  option_map id (hd_error tabsData) = Some (activeTab initialState)
  /\ activeTab initialState = lit "implications"
  /\ selected (select_all tabs s0) = 1%nat
  /\ rendered (select_all tabs s0) = 1%nat
  /\ select_all tabs s0 = with_activeTab (activeTab (select_all tabs s0)) s0
  /\ activeTab (select_all tabs s0) = last (map id tabs) (activeTab s0)
  /\ map (fun button => id (fst button)) (filter snd (nav (select_all tabs s0)))
     = [activeTab (select_all tabs s0)]
  /\ (activeTab (select_all tabs s0) = lit "implications"
      /\ article (select_all tabs s0) = [Some ImplicationsContent; None; None]
      \/ activeTab (select_all tabs s0) = lit "thermodynamics"
         /\ article (select_all tabs s0) = [None; Some ThermodynamicsContent; None]
      \/ activeTab (select_all tabs s0) = lit "chat"
         /\ article (select_all tabs s0)
            = [None; None;
               Some (ChatInterface (ChatView.chat_props (select_all tabs s0)))]).
Proof.
  intros Htabs H0. split; [reflexivity|]. split; [reflexivity|].
  unfold select_all. rewrite select_all_fold. cbn [fresh st].
  destruct (select_all_active tabs s0 Htabs H0) as [Hin Heq].
  destruct (valid_tab_exclusive _ Hin) as [Hsel Hren].
  destruct (valid_tab_shown _ Hin) as [Hnav Hart].
  split; [exact Hsel|]. split; [exact Hren|]. split; [exact Heq|].
  split; [apply select_all_last|]. split; [exact Hnav|exact Hart].
Qed.

Lemma tab_selection_exclusive_witness :
  let chatTab :=
    {| id := lit "chat"; title := lit "Chatea con un experto";
       icon := ChatBubbleIcon |} in
  let thermodynamicsTab :=
    {| id := lit "thermodynamics"; title := lit "Perspectiva Termodinámica";
       icon := BeakerIcon |} in
  let tabs := [thermodynamicsTab; chatTab] in
  let s := select_all tabs initialState in
  Forall (fun tab => In tab tabsData) tabs
  /\ In (activeTab initialState) (map id tabsData)
  /\ option_map id (hd_error tabsData) = Some (activeTab initialState)
  /\ activeTab initialState = lit "implications"
  /\ selected s = 1%nat
  /\ rendered s = 1%nat
  /\ s = with_activeTab (activeTab s) initialState
  /\ activeTab s = last (map id tabs) (activeTab initialState)
  /\ map (fun button => id (fst button)) (filter snd (nav s)) = [activeTab s]
  /\ (activeTab s = lit "implications"
      /\ article s = [Some ImplicationsContent; None; None]
      \/ activeTab s = lit "thermodynamics"
         /\ article s = [None; Some ThermodynamicsContent; None]
      \/ activeTab s = lit "chat"
         /\ article s = [None; None; Some (ChatInterface (ChatView.chat_props s))]).
Proof.
  cbv zeta.
  assert (Htabs : Forall (fun tab => In tab tabsData)
            [ {| id := lit "thermodynamics";
                 title := lit "Perspectiva Termodinámica"; icon := BeakerIcon |};
              {| id := lit "chat"; title := lit "Chatea con un experto";
                 icon := ChatBubbleIcon |} ]).
  { constructor; [right; left; reflexivity|].
    constructor; [right; right; left; reflexivity|constructor]. }
  assert (H0 : In (activeTab initialState) (map id tabsData))
    by (left; reflexivity).
  split; [exact Htabs|]. split; [exact H0|].
  exact (tab_selection_exclusive initialState _ Htabs H0).
Defined.

End CardFacts.

(** ** Further properties of the audio helpers *)

Module AudioProperties.
Import Audio Notions AudioFacts.

Lemma strip_padding_plain d :
  Forall (fun c => is_b64 c = true) d -> strip_padding d = d.
Proof.
  intros Hd. unfold strip_padding.
  destruct (rev d) as [|c r] eqn:E; [reflexivity|].
  assert (Hc : is_b64 c = true).
  { rewrite Forall_forall in Hd. apply Hd, in_rev. rewrite E. now left. }
  now rewrite (proj2 (is_b64_plain c Hc)).
Qed.

Lemma atob_btoa_body bytes :
  Forall byte bytes -> atob (btoa_body bytes) = Some bytes.
Proof.
  intros Hb. pose proof (btoa_body_alphabet bytes Hb) as Hbody.
  unfold atob.
  rewrite (filter_all (fun c => negb (isAsciiWhitespace c))).
  - cbv zeta. rewrite (strip_padding_plain _ Hbody).
    replace (if (Nat.modulo (List.length (btoa_body bytes)) 4 =? 0)%nat
             then btoa_body bytes else btoa_body bytes)
      with (btoa_body bytes) by now destruct (_ =? _)%nat.
    rewrite (btoa_body_length bytes). now apply atob_loop_btoa_body.
  - eapply Forall_impl; [|exact Hbody].
    intros c Hc. now rewrite (proj1 (is_b64_plain c Hc)).
Qed.

(** X1.  [decode] inverts the standard base64 encoding of any byte
    sequence, with its padding or without it. *)
Theorem decode_inverts_base64 (bytes : list Z) :
  Forall byte bytes ->
  decode (btoa bytes) = Some bytes /\ decode (btoa_body bytes) = Some bytes.
Proof.
  intros Hb. split; [now apply decode_btoa|].
  unfold decode. rewrite (atob_btoa_body bytes Hb). f_equal.
  clear - Hb. induction Hb as [|b l Hb _ IH]; cbn [map]; [reflexivity|].
  rewrite IH. f_equal. now apply Z.mod_small.
Qed.

Lemma decode_inverts_base64_witness :
  Forall byte [0; 255; 16; 128]
  /\ decode (btoa [0; 255; 16; 128]) = Some [0; 255; 16; 128]
  /\ decode (btoa_body [0; 255; 16; 128]) = Some [0; 255; 16; 128].
Proof.
  assert (H : Forall byte [0; 255; 16; 128])
    by (repeat constructor; unfold byte; lia).
  split; [exact H|]. exact (decode_inverts_base64 _ H).
Defined.

Lemma atob_loop_invalid c : forall data buffer bits,
  In c data -> is_b64 c = false -> atob_loop data buffer bits = None.
Proof.
  induction data as [|x rest IH]; intros buffer bits Hin Hc; [destruct Hin|].
  cbn [atob_loop]. destruct (b64_value x) as [v|] eqn:Ex; [|reflexivity].
  destruct Hin as [-> | Hin].
  - unfold is_b64 in Hc. now rewrite Ex in Hc.
  - cbv zeta. destruct (bits + 6 =? 24).
    + now rewrite (IH 0 0 Hin Hc).
    + now apply IH.
Qed.

Lemma strip_padding_keeps c d :
  In c d -> c <> 61 -> In c (strip_padding d).
Proof.
  intros Hin Hc. unfold strip_padding.
  apply in_rev in Hin.
  destruct (rev d) as [|c1 r] eqn:E; [destruct Hin|].
  destruct (Z.eqb_spec c1 61) as [-> | _]; [|apply in_rev; now rewrite E].
  destruct Hin as [Hin|Hin]; [congruence|].
  destruct r as [|c2 r']; [destruct Hin|].
  destruct (Z.eqb_spec c2 61) as [-> | _].
  - destruct Hin as [Hin|Hin]; [congruence|]. now apply -> in_rev.
  - now apply -> in_rev.
Qed.

(** X2.  [decode] throws on a text that holds a code unit outside the
    base64 alphabet, other than ASCII whitespace and [=], wherever it
    stands. *)
Theorem decode_rejects_foreign_character (base64 : jsstring) (c : Z) :
  In c base64 ->
  is_b64 c = false -> isAsciiWhitespace c = false -> c <> 61 ->
  decode base64 = None.
Proof.
  intros Hin Hc Hws Hpad. unfold decode, atob. cbv zeta.
  set (data := filter (fun c => negb (isAsciiWhitespace c)) base64).
  assert (Hdata : In c data).
  { apply filter_In. split; [exact Hin|]. now rewrite Hws. }
  set (data' := if (Nat.modulo (List.length data) 4 =? 0)%nat
                then strip_padding data else data).
  assert (Hdata' : In c data').
  { subst data'. destruct (_ =? _)%nat; [|exact Hdata].
    now apply strip_padding_keeps. }
  destruct (Nat.modulo (List.length data') 4 =? 1)%nat; [reflexivity|].
  now rewrite (atob_loop_invalid c data' 0 0 Hdata' Hc).
Qed.

Lemma decode_rejects_foreign_character_witness :
  decode (lit "AQ!D") = None.
Proof.
  apply (decode_rejects_foreign_character (lit "AQ!D") 33);
    [right; right; left; reflexivity|reflexivity|reflexivity|discriminate].
Defined.

Lemma int16_le_range lo hi : byte lo -> byte hi -> int16 (int16_le lo hi).
Proof. unfold byte, int16, int16_le. intros Hlo Hhi. cbv zeta. case_if; lia. Qed.

Lemma list_ind2 {A} (P : list A -> Prop) :
  P [] -> (forall a, P [a]) -> (forall a b l, P l -> P (a :: b :: l)) ->
  forall l, P l.
Proof.
  intros H0 H1 H2. fix IH 1. intros [|a [|b l]].
  - exact H0.
  - apply H1.
  - apply H2, IH.
Qed.

Lemma int16_view_range bytes : Forall byte bytes -> Forall int16 (int16_view bytes).
Proof.
  induction bytes as [|lo|lo hi rest IH] using list_ind2; intros Hb;
    cbn [int16_view]; try constructor.
  - inversion_clear Hb as [|? ? Hlo Hb']. inversion_clear Hb' as [|? ? Hhi _].
    now apply int16_le_range.
  - inversion_clear Hb as [|? ? _ Hb']. inversion_clear Hb' as [|? ? _ Hr].
    now apply IH.
Qed.

Lemma int16_view_length bytes :
  List.length (int16_view bytes) = Nat.div (List.length bytes) 2.
Proof.
  induction bytes as [|lo|lo hi rest IH] using list_ind2; try reflexivity.
  cbn [int16_view List.length]. rewrite IH.
  change (S (S (List.length rest))) with (2 + List.length rest)%nat.
  replace (2 + List.length rest)%nat with (List.length rest + 1 * 2)%nat by lia.
  rewrite Nat.div_add by lia. lia.
Qed.

Lemma fill_channel_deinterleaved dataInt16 numChannels channel frameCount :
  fill_channel dataInt16 numChannels channel frameCount (repeat 0%Q frameCount)
  = deinterleaved dataInt16 numChannels channel frameCount.
Proof.
  unfold fill_channel, deinterleaved.
  pose proof (fill_from
                (fun i => nth (i * numChannels + channel) dataInt16 0 # 32768)
                frameCount 0 [] (repeat 0%Q frameCount)
                eq_refl (repeat_length _ _)) as Hfill.
  cbn [app] in Hfill. exact Hfill.
Qed.

(** The loop over the channels fills them in order. *)
Lemma fill_buffer_from dataInt16 numChannels frameCount rate total m :
  forall k pre,
  List.length pre = k ->
  fold_left
    (fun b channel =>
       {| numberOfChannels := numberOfChannels b;
          length := length b;
          sampleRate := sampleRate b;
          channels :=
            assign (channels b) channel
              (fill_channel dataInt16 numChannels channel frameCount
                 (getChannelData b channel)) |})
    (seq k m)
    {| numberOfChannels := total; length := frameCount; sampleRate := rate;
       channels := pre ++ repeat (repeat 0%Q frameCount) m |}
  = {| numberOfChannels := total; length := frameCount; sampleRate := rate;
       channels :=
         pre ++ map (fun c => deinterleaved dataInt16 numChannels c frameCount)
                  (seq k m) |}.
Proof.
  induction m as [|m IH]; intros k pre Hpre; [reflexivity|]. subst k.
  cbn [seq fold_left repeat map numberOfChannels length sampleRate channels].
  unfold getChannelData in IH |- *. cbn [channels].
  rewrite assign_middle, nth_middle.
  rewrite fill_channel_deinterleaved.
  change (pre ++ deinterleaved dataInt16 numChannels (List.length pre) frameCount
            :: repeat (repeat 0%Q frameCount) m)
    with (pre ++ [deinterleaved dataInt16 numChannels (List.length pre) frameCount]
            ++ repeat (repeat 0%Q frameCount) m).
  rewrite app_assoc. rewrite (IH (S (List.length pre))).
  - now rewrite <- app_assoc.
  - rewrite length_app. cbn. lia.
Qed.

Lemma deinterleaved_range dataInt16 numChannels channel frameCount :
  Forall int16 dataInt16 ->
  Forall unit_range (deinterleaved dataInt16 numChannels channel frameCount).
Proof.
  intros Hd. unfold deinterleaved. apply Forall_map, Forall_forall.
  intros i _. unfold unit_range, Qle, Qlt. cbn.
  assert (H : int16 (nth (i * numChannels + channel) dataInt16 0)).
  { destruct (Nat.lt_ge_cases (i * numChannels + channel) (List.length dataInt16))
      as [Hlt|Hge].
    - rewrite Forall_forall in Hd. now apply Hd, nth_In.
    - rewrite nth_overflow by exact Hge. unfold int16. lia. }
  unfold int16 in H. lia.
Qed.

(** X3.  For 1 to 32 channels, a rate from 8000 Hz to 96000 Hz and an even
    number of bytes that gives at least one frame, [decodeAudioData] returns
    a buffer of that many channels and of (bytes / 2) / channels frames, at
    the given rate; frame [i] of channel [c] is the 16-bit value at
    [i * numChannels + c] over 32768, and every sample lies in [-1, 1). *)
Theorem decodeAudioData_deinterleaves (data : list Z) (rate : Z) (numChannels : nat) :
  Forall byte data ->
  Nat.even (List.length data) = true ->
  (1 <= numChannels <= 32)%nat ->
  8000 <= rate <= 96000 ->
  (numChannels <= Nat.div (List.length data) 2)%nat ->
  exists buffer,
    decodeAudioData data rate numChannels = Some buffer
    /\ numberOfChannels buffer = numChannels
    /\ length buffer = Nat.div (Nat.div (List.length data) 2) numChannels
    /\ (1 <= length buffer)%nat
    /\ sampleRate buffer = rate
    /\ channels buffer
       = map (fun c => deinterleaved (int16_view data) numChannels c (length buffer))
           (seq 0 numChannels)
    /\ (forall c, (c < numChannels)%nat ->
          List.length (getChannelData buffer c) = length buffer
          /\ Forall unit_range (getChannelData buffer c)
          /\ forall i, (i < length buffer)%nat ->
               nth i (getChannelData buffer c) 0%Q
               = (nth (i * numChannels + c) (int16_view data) 0 # 32768)).
Proof.
  intros Hb Heven Hn Hrate Hframes. unfold decodeAudioData, Int16Array_of.
  rewrite Heven.
  set (fc := Nat.div (List.length (int16_view data)) numChannels).
  assert (Hfc : (1 <= fc)%nat).
  { subst fc. rewrite int16_view_length.
    apply Nat.div_le_lower_bound; lia. }
  rewrite (createBuffer_nominal numChannels fc rate Hn Hfc Hrate).
  eexists. split; [reflexivity|].
  unfold fill_buffer.
  pose proof (fill_buffer_from (int16_view data) numChannels fc rate
                numChannels numChannels 0 [] eq_refl) as Hfill.
  cbn [app] in Hfill. rewrite Hfill. clear Hfill.
  cbn [numberOfChannels length sampleRate channels].
  split; [reflexivity|]. split; [subst fc; now rewrite int16_view_length|].
  split; [exact Hfc|]. split; [reflexivity|]. split; [reflexivity|].
  intros c Hc. unfold getChannelData. cbn [channels].
  rewrite (nth_indep _ [] (deinterleaved (int16_view data) numChannels 0 fc))
    by (rewrite length_map, length_seq; exact Hc).
  rewrite (map_nth (fun c => deinterleaved (int16_view data) numChannels c fc)).
  rewrite seq_nth by exact Hc. cbn [Nat.add].
  split; [unfold deinterleaved; now rewrite length_map, length_seq|].
  split; [apply deinterleaved_range, int16_view_range, Hb|].
  intros i Hi. unfold deinterleaved.
  rewrite (nth_indep _ 0%Q
             ((fun i => nth (i * numChannels + c) (int16_view data) 0 # 32768)
                0%nat))
    by (rewrite length_map, length_seq; exact Hi).
  rewrite (map_nth (fun i => nth (i * numChannels + c) (int16_view data) 0 # 32768)).
  now rewrite seq_nth by exact Hi.
Qed.

Lemma decodeAudioData_deinterleaves_witness :
  Forall byte [1; 0; 255; 255; 0; 128; 255; 127]
  /\ Nat.even (List.length [1; 0; 255; 255; 0; 128; 255; 127]) = true
  /\ (1 <= 2 <= 32)%nat
  /\ 8000 <= 24000 <= 96000
  /\ (2 <= Nat.div (List.length [1; 0; 255; 255; 0; 128; 255; 127]) 2)%nat
  /\ exists buffer,
    decodeAudioData [1; 0; 255; 255; 0; 128; 255; 127] 24000 2 = Some buffer
    /\ numberOfChannels buffer = 2%nat
    /\ length buffer = 2%nat
    /\ (1 <= length buffer)%nat
    /\ sampleRate buffer = 24000
    /\ channels buffer
       = map (fun c =>
                deinterleaved (int16_view [1; 0; 255; 255; 0; 128; 255; 127])
                  2 c (length buffer))
           (seq 0 2)
    /\ (forall c, (c < 2)%nat ->
          List.length (getChannelData buffer c) = length buffer
          /\ Forall unit_range (getChannelData buffer c)
          /\ forall i, (i < length buffer)%nat ->
               nth i (getChannelData buffer c) 0%Q
               = (nth (i * 2 + c)
                    (int16_view [1; 0; 255; 255; 0; 128; 255; 127]) 0 # 32768)).
Proof.
  assert (H : Forall byte [1; 0; 255; 255; 0; 128; 255; 127])
    by (repeat constructor; unfold byte; lia).
  assert (Hn : (1 <= 2 <= 32)%nat) by lia.
  assert (Hr : 8000 <= 24000 <= 96000) by lia.
  assert (Hf : (2 <= Nat.div (List.length [1; 0; 255; 255; 0; 128; 255; 127]) 2)%nat)
    by (cbn; lia).
  split; [exact H|]. split; [reflexivity|]. split; [exact Hn|].
  split; [exact Hr|]. split; [exact Hf|].
  exact (decodeAudioData_deinterleaves _ 24000 2 H eq_refl Hn Hr Hf).
Defined.

(** X17.  [decodeAudioData] throws when the number of bytes is odd, when
    there is no channel, and when the bytes hold fewer 16-bit values than
    there are channels, so that no frame is complete: in particular for no
    byte at all, at any rate and for any number of channels. *)
Theorem decodeAudioData_rejects (data : list Z) (rate : Z) (numChannels : nat) :
  Nat.even (List.length data) = false
  \/ numChannels = 0%nat
  \/ (Nat.div (List.length data) 2 < numChannels)%nat ->
  decodeAudioData data rate numChannels = None.
Proof.
  intros [Hodd | [Hzero | Hfew]]; unfold decodeAudioData, Int16Array_of.
  - now rewrite Hodd.
  - subst numChannels. now destruct (Nat.even (List.length data)).
  - destruct (Nat.even (List.length data)); [|reflexivity].
    rewrite int16_view_length, (Nat.div_small _ _ Hfew).
    unfold createBuffer. cbn [Nat.leb andb].
    now rewrite !andb_false_r.
Qed.

Lemma decodeAudioData_rejects_witness :
  (Nat.even (List.length (@nil Z)) = false
   \/ 1%nat = 0%nat
   \/ (Nat.div (List.length (@nil Z)) 2 < 1)%nat)
  /\ decodeAudioData [] 24000 1 = None.
Proof.
  assert (H : Nat.even (List.length (@nil Z)) = false
              \/ 1%nat = 0%nat
              \/ (Nat.div (List.length (@nil Z)) 2 < 1)%nat)
    by (right; right; cbn; lia).
  split; [exact H|]. exact (decodeAudioData_rejects [] 24000 1 H).
Defined.

End AudioProperties.

(** ** Further properties of the controller *)

Module CardProperties.
Import Audio Card ChatView Notions AudioFacts CardFacts.

(** What a run of [handleSendMessage] leaves behind, whatever the
    collaborators answer. *)
Lemma handleSendMessage_summary o s :
  session (st (run (handleSendMessage o) s)) = session s
  /\ (exists extra,
        chatHistory (st (run (handleSendMessage o) s)) = chatHistory s ++ extra
        /\ List.length extra = (if accepted s then 2 else 0)%nat)
  /\ (isLoading s = false -> isLoading (st (run (handleSendMessage o) s)) = false)
  /\ isListening (st (run (handleSendMessage o) s)) = isListening s.
Proof.
  unfold handleSendMessage, accepted, session. run_handler.
  destruct (negb (truthy (trim (userInput s))) || isLoading s
            || is_null (chat s) || isSpeaking s).
  { cbn [snd st negb]. repeat split; try reflexivity; try (intros H; exact H).
    exists []. now rewrite app_nil_r. }
  cbn [negb]. run_handler.
  destruct (sendMessage o (userInput s)) as [T|]; run_handler.
  - match goal with
    | |- context [playAudioResponse ?a ?t ?w0] =>
        destruct (playAudioResponse_frame a t w0) as (w' & E & Hst & _);
          rewrite E
    end.
    cbn [snd st log] in Hst |- *.
    destruct Hst as [-> | [b ->]]; state_fields; rewrite <- app_assoc;
      (repeat split; try reflexivity; eexists; split; reflexivity).
  - cbn [snd st]. state_fields. rewrite <- app_assoc.
    repeat split; try reflexivity; eexists; split; reflexivity.
Qed.

Lemma handler_summary e s :
  session (st (run (handler e) s)) = session s
  /\ (exists extra,
        chatHistory (st (run (handler e) s)) = chatHistory s ++ extra
        /\ List.length extra = turns_added e s)
  /\ (isLoading s = false -> isLoading (st (run (handler e) s)) = false)
  /\ (speechRecognitionRef s = None ->
      isListening (st (run (handler e) s)) = isListening s).
Proof.
  destruct e as [o|tab|value| |event| | ]; cbn [handler turns_added].
  - destruct (handleSendMessage_summary o s) as (H1 & H2 & H3 & H4).
    repeat split; auto.
  - unfold selectTab. kept.
  - kept.
  - unfold handleMicClick. run_handler.
    destruct (speechRecognitionRef s) eqn:E; cbn [is_null]; [|kept].
    destruct (isListening s); kept.
  - run_handler. destruct (speechRecognitionRef s) eqn:E; [|kept].
    unfold recognition_onresult. case_if; kept.
  - run_handler. destruct (speechRecognitionRef s) as [r|] eqn:E; [|kept].
    unfold recognition_onend. run_handler.
    destruct (truthy (trim (onend_userInput r))); [|kept].
    run_handler. case_if; kept.
  - unfold source_onended. kept.
Qed.

Lemma reachable_session p s : reachable p s -> session s = session (mount p).
Proof.
  induction 1 as [|s e _ IH _]; [reflexivity|].
  now rewrite (proj1 (handler_summary e s)).
Qed.

(** X8.  No handler edits or removes a turn: the transcript after an event
    is the transcript before it followed by two turns for an accepted
    submission and by nothing for any other event. *)
Theorem handler_appends_turns (e : Event) (s : State) :
  exists extra,
    chatHistory (st (run (handler e) s)) = chatHistory s ++ extra
    /\ List.length extra = turns_added e s.
Proof.
  destruct (handler_summary e s) as (_ & (extra & Happ & Hlen) & _).
  exists extra. split; [exact Happ|exact Hlen].
Qed.

(** X7.  After the mount effect and after every completed run of a handler
    [isLoading] is false: whatever the collaborators answer,
    [handleSendMessage] clears it in its [finally] block. *)
Theorem reachable_not_loading (p : Platform) (s : State) :
  reachable p s -> isLoading s = false.
Proof.
  induction 1 as [|s e _ IH _].
  - destruct p as [[] [] [] [] []]; reflexivity.
  - now apply (handler_summary e s).
Qed.

Lemma reachable_not_loading_witness :
  isLoading
    (st (run (handler
                (onSubmit {| sendMessage := fun _ => None;
                             generateContent := fun _ => None |}))
           (st (run (handler (onChange (lit "hola")))
                  (mount {| new_GoogleGenAI := true; chats_create := true;
                            SpeechRecognition_available := true;
                            new_SpeechRecognition := true;
                            new_AudioContext := true |})))))
  = false.
Proof.
  apply (reachable_not_loading
           {| new_GoogleGenAI := true; chats_create := true;
              SpeechRecognition_available := true;
              new_SpeechRecognition := true; new_AudioContext := true |}).
  apply reachable_step; [|exact I].
  apply reachable_step; [|exact I].
  apply reachable_mount.
Defined.

(** X6.  No exception escapes the mount effect or a handler: in every world
    and for every answer of the collaborators and of the platform they
    complete. *)
Theorem no_exception_escapes :
  (forall (p : Platform) (render : State) (w : World),
      exists w', init p render w = (Normal tt, w'))
  /\ (forall (e : Event) (w : World), exists w', handler e w = (Normal tt, w')).
Proof.
  split.
  { intros p render w.
    unfold init. destruct p as [[] [] [] [] []]; run_handler;
      cbn [new_GoogleGenAI chats_create SpeechRecognition_available
           new_SpeechRecognition new_AudioContext];
      run_handler; eexists; reflexivity. }
  intros e w.
  destruct e as [o|tab|value| |event| | ]; cbn [handler].
  - unfold handleSendMessage. run_handler.
    destruct (negb (truthy (trim (userInput (st w)))) || isLoading (st w)
              || is_null (chat (st w)) || isSpeaking (st w));
      [eexists; reflexivity|].
    run_handler.
    destruct (sendMessage o (userInput (st w))) as [T|]; run_handler;
      [|eexists; reflexivity].
    match goal with
    | |- context [playAudioResponse ?a ?t ?w0] =>
        destruct (playAudioResponse_frame a t w0) as (w' & E & _); rewrite E
    end.
    eexists; reflexivity.
  - unfold selectTab. run_handler. eexists; reflexivity.
  - run_handler. eexists; reflexivity.
  - unfold handleMicClick. run_handler.
    destruct (is_null (speechRecognitionRef (st w))); [eexists; reflexivity|].
    destruct (isListening (st w)); run_handler; eexists; reflexivity.
  - run_handler. destruct (speechRecognitionRef (st w)); [|eexists; reflexivity].
    unfold recognition_onresult. case_if; run_handler; eexists; reflexivity.
  - run_handler.
    destruct (speechRecognitionRef (st w)) as [r|]; [|eexists; reflexivity].
    unfold recognition_onend. run_handler.
    destruct (truthy (trim (onend_userInput r))); [|eexists; reflexivity].
    run_handler. case_if; run_handler; eexists; reflexivity.
  - unfold source_onended. run_handler. eexists; reflexivity.
Qed.

Lemma btoa_truthy samples :
  samples <> [] -> truthy (btoa (pcm16le samples)) = true.
Proof.
  destruct samples as [|v [|v' rest]]; [congruence|reflexivity|reflexivity].
Qed.

Lemma playAudioResponse_valid_payload o text w samples :
  is_null (aiRef (st w)) = false -> is_null (audioContextRef (st w)) = false ->
  samples <> [] -> Forall int16 samples ->
  generateContent o text = Some (Some (btoa (pcm16le samples))) ->
  playAudioResponse o text w
  = (Normal tt,
     {| st := with_isSpeaking true (st w);
        log := log w
               ++ [ (setIsSpeaking true, with_isSpeaking true (st w));
                    (call_generateContent text, with_isSpeaking true (st w));
                    (source_start
                       {| numberOfChannels := 1;
                          length := List.length samples;
                          sampleRate := 24000;
                          channels := [reference_deinterleave samples] |},
                     with_isSpeaking true (st w)) ] |}).
Proof.
  intros Hai Hctx Hne Hs Hsyn.
  unfold playAudioResponse. run_handler. rewrite Hai, Hctx. cbn [orb].
  rewrite Hsyn. run_handler. rewrite (btoa_truthy samples Hne).
  rewrite (decode_btoa _ (pcm16le_bytes samples)). run_handler.
  rewrite (decodeAudioData_pcm16le samples Hs Hne). run_handler.
  now rewrite <- !app_assoc.
Qed.

(** X4.  With the client and the audio context in place, when the synthesis
    answers with the base64 text of a non-empty 16-bit payload,
    [playAudioResponse] sets [isSpeaking], calls the synthesis and starts a
    source whose buffer is the reference de-interleave of the payload; it
    returns with [isSpeaking] still set. *)
Theorem playAudioResponse_plays (o : Collaborators) (text : jsstring) (w : World)
    (samples : list Z) :
  is_null (aiRef (st w)) = false -> is_null (audioContextRef (st w)) = false ->
  samples <> [] -> Forall int16 samples ->
  generateContent o text = Some (Some (btoa (pcm16le samples))) ->
  playAudioResponse o text w
  = (Normal tt,
     {| st := with_isSpeaking true (st w);
        log := log w
               ++ [ (setIsSpeaking true, with_isSpeaking true (st w));
                    (call_generateContent text, with_isSpeaking true (st w));
                    (source_start
                       {| numberOfChannels := 1;
                          length := List.length samples;
                          sampleRate := 24000;
                          channels := [reference_deinterleave samples] |},
                     with_isSpeaking true (st w)) ] |}).
Proof. apply playAudioResponse_valid_payload. Qed.

Lemma playAudioResponse_plays_witness :
  playAudioResponse
    {| sendMessage := fun _ => None;
       generateContent := fun _ => Some (Some (btoa (pcm16le [1; -2]))) |}
    (lit "T") (fresh (mount full_platform))
  = (Normal tt,
     {| st := with_isSpeaking true (mount full_platform);
        log := [ (setIsSpeaking true, with_isSpeaking true (mount full_platform));
                 (call_generateContent (lit "T"),
                  with_isSpeaking true (mount full_platform));
                 (source_start
                    {| numberOfChannels := 1; length := 2; sampleRate := 24000;
                       channels := [reference_deinterleave [1; -2]] |},
                  with_isSpeaking true (mount full_platform)) ] |}).
Proof.
  apply (playAudioResponse_plays
           {| sendMessage := fun _ => None;
              generateContent := fun _ => Some (Some (btoa (pcm16le [1; -2]))) |}
           (lit "T") (fresh (mount full_platform)) [1; -2]);
    try reflexivity; [discriminate|].
  repeat constructor; unfold int16; lia.
Defined.

(** X5.  A payload that is not valid base64, or that decodes to an odd
    number of bytes, is an error that [playAudioResponse] catches: it logs
    the error, clears [isSpeaking] and starts no source. *)
Theorem playAudioResponse_undecodable (o : Collaborators) (text : jsstring)
    (w : World) (base64Audio : jsstring) :
  is_null (aiRef (st w)) = false -> is_null (audioContextRef (st w)) = false ->
  generateContent o text = Some (Some base64Audio) ->
  truthy base64Audio = true ->
  decode base64Audio = None
  \/ (exists data, decode base64Audio = Some data
                   /\ Nat.even (List.length data) = false) ->
  playAudioResponse o text w
  = (Normal tt,
     {| st := with_isSpeaking false (st w);
        log := log w ++ [ (setIsSpeaking true, with_isSpeaking true (st w));
                          (call_generateContent text, with_isSpeaking true (st w));
                          (console_error (lit "Error generating audio:"),
                           with_isSpeaking true (st w));
                          (setIsSpeaking false, with_isSpeaking false (st w)) ] |}).
Proof.
  intros Hai Hctx Hsyn Htruthy Hbad.
  unfold playAudioResponse. run_handler. rewrite Hai, Hctx. cbn [orb].
  rewrite Hsyn. run_handler. rewrite Htruthy.
  destruct Hbad as [-> | (data & -> & Hodd)]; run_handler.
  - now rewrite <- !app_assoc.
  - unfold decodeAudioData, Int16Array_of. rewrite Hodd. run_handler.
    now rewrite <- !app_assoc.
Qed.

Lemma mount_audioContext p :
  new_AudioContext p = false -> audioContextRef (mount p) = None.
Proof. destruct p as [[] [] [] [] []]; intros H; try discriminate H; reflexivity. Qed.

Lemma mount_chat p :
  new_GoogleGenAI p && chats_create p = false ->
  chat (mount p) = None
  /\ chatHistory (mount p) = [ {| role := system; content := initErrorText |} ].
Proof.
  destruct p as [[] [] [] [] []]; intros H; try discriminate H;
    split; vm_compute; reflexivity.
Qed.

Lemma mount_recognition_missing p :
  SpeechRecognition_available p = false ->
  speechRecognitionRef (mount p) = None /\ isListening (mount p) = false.
Proof.
  destruct p as [[] [] [] [] []]; intros H; try discriminate H;
    split; reflexivity.
Qed.

(** X10.  When the [AudioContext] constructor throws at mount, every
    accepted submission with a reply is text-only: the transcript gains both
    turns, the synthesis is never called and [isSpeaking] is never set. *)
Theorem no_audio_context_text_only (p : Platform) (s : State) (o : Collaborators)
    (T : jsstring) :
  new_AudioContext p = false ->
  reachable p s ->
  accepted s = true ->
  sendMessage o (userInput s) = Some T ->
  effects (run (handleSendMessage o) s)
  = [ preventDefault;
      setChatHistory
        (chatHistory s ++ [ {| role := user; content := userInput s |} ]);
      setUserInput [];
      setIsLoading true;
      call_sendMessage (userInput s);
      setChatHistory
        (chatHistory s ++ [ {| role := user; content := userInput s |};
                            {| role := model; content := T |} ]);
      setIsLoading false ]
  /\ isSpeaking (st (run (handleSendMessage o) s)) = false.
Proof.
  intros Hp Hr Hacc Hsend.
  assert (Hctx : audioContextRef s = None).
  { pose proof (reachable_session p s Hr) as E. unfold session in E.
    injection E as _ _ E _. rewrite E. now apply mount_audioContext. }
  assert (Hspeak : isSpeaking s = false).
  { pose proof (accepted_guard s Hacc) as G.
    destruct (isSpeaking s); [|reflexivity]. now rewrite !orb_true_r in G. }
  unfold handleSendMessage, effects. run_handler.
  rewrite (accepted_guard s Hacc). run_handler. rewrite Hsend. run_handler.
  unfold playAudioResponse. run_handler. state_fields. rewrite Hctx.
  cbn [is_null]. rewrite orb_true_r. run_handler. cbn [map fst snd st log].
  state_fields. rewrite <- app_assoc. split; [reflexivity|exact Hspeak].
Qed.

(** X11.  When the client or the chat session cannot be created at mount,
    the chat stays closed in every reachable state: [chat] is null, the
    transcript is the single system error turn, and the text input and the
    microphone button are disabled. *)
Theorem failed_session_stays_closed (p : Platform) (s : State) :
  new_GoogleGenAI p && chats_create p = false ->
  reachable p s ->
  chat s = None
  /\ chatHistory s = [ {| role := system; content := initErrorText |} ]
  /\ input_disabled (form (chat_props s)) = true
  /\ mic_disabled (form (chat_props s)) = true.
Proof.
  intros Hp Hr. destruct (mount_chat p Hp) as [Hchat Hhist].
  assert (Hall : forall s, reachable p s ->
            chat s = None
            /\ chatHistory s = [ {| role := system; content := initErrorText |} ]).
  { clear s Hr. induction 1 as [|s e _ [IHc IHh] _]; [now split|].
    destruct (handler_summary e s) as (Hs & (extra & He & Hlen) & _).
    unfold session in Hs. injection Hs as Hs _ _ _. split; [congruence|].
    assert (Hz : turns_added e s = 0%nat).
    { destruct e; try reflexivity. cbn [turns_added]. unfold accepted.
      rewrite IHc. cbn [is_null]. now rewrite orb_true_r. }
    rewrite Hz in Hlen. destruct extra; [|discriminate Hlen].
    now rewrite He, app_nil_r. }
  destruct (Hall s Hr) as [Hc Hh]. repeat split; try assumption.
  - cbn. rewrite Hc. cbn. now rewrite orb_true_r.
  - cbn. rewrite Hc. cbn. now rewrite orb_true_r.
Qed.

(** X12.  On a platform without [SpeechRecognition], in every reachable
    state there is no recognition object, [isListening] is false and a click
    on the microphone does nothing. *)
Theorem no_recognition_no_capture (p : Platform) (s : State) :
  SpeechRecognition_available p = false ->
  reachable p s ->
  speechRecognitionRef s = None
  /\ isListening s = false
  /\ handleMicClick (fresh s) = (Normal tt, fresh s).
Proof.
  intros Hp Hr. destruct (mount_recognition_missing p Hp) as [Href Hlis].
  assert (Hall : forall s, reachable p s ->
            speechRecognitionRef s = None /\ isListening s = false).
  { clear s Hr. induction 1 as [|s e _ [IHr IHl] _]; [now split|].
    destruct (handler_summary e s) as (Hs & _ & _ & Hkeep).
    unfold session in Hs. injection Hs as _ _ _ Hs. split; [congruence|].
    now rewrite (Hkeep IHr). }
  destruct (Hall s Hr) as [H1 H2]. repeat split; try assumption.
  unfold handleMicClick. run_handler. now rewrite H1.
Qed.

(** X14.  In every reachable state with a recognition object, the end of a
    capture does one thing: it clears [isListening]. *)
Theorem capture_end_only_clears_listening (p : Platform) (s : State) :
  reachable p s ->
  speechRecognitionRef s <> None ->
  handler onend (fresh s)
  = (Normal tt,
     {| st := with_isListening false s;
        log := [(setIsListening false, with_isListening false s)] |}).
Proof.
  intros Hr Href. cbn [handler]. run_handler.
  destruct (speechRecognitionRef s) as [r|] eqn:E; [|congruence].
  unfold recognition_onend. run_handler.
  now rewrite (reachable_recognition p s Hr r E).
Qed.

Lemma final_fold l : forall acc,
  fold_left (fun acc r => if isFinal r then acc ++ transcript r else acc) l acc
  = acc ++ List.concat (map transcript (filter isFinal l)).
Proof.
  induction l as [|r l IH]; intros acc; cbn [fold_left filter];
    [now rewrite app_nil_r|].
  rewrite IH. destruct (isFinal r); [|reflexivity].
  cbn [map List.concat]. now rewrite app_assoc.
Qed.

(** One result event appends its final text to the input. *)
Lemma onresult_appends event w :
  speechRecognitionRef (st w) <> None ->
  userInput (st (snd (handler (onresult event) w)))
    = userInput (st w) ++ final_text event
  /\ with_userInput [] (st (snd (handler (onresult event) w)))
     = with_userInput [] (st w).
Proof.
  intros Href. cbn [handler]. run_handler.
  destruct (speechRecognitionRef (st w)); [|congruence].
  unfold recognition_onresult. rewrite final_fold. cbn [app].
  fold (final_text event).
  destruct (final_text event) as [|c r]; cbn [truthy]; run_handler;
    cbn [snd st]; state_fields; [now rewrite app_nil_r|now split].
Qed.

Lemma onresults_append events : forall w,
  speechRecognitionRef (st w) <> None ->
  userInput (st (handle_all (map onresult events) w))
    = userInput (st w) ++ List.concat (map final_text events)
  /\ with_userInput [] (st (handle_all (map onresult events) w))
     = with_userInput [] (st w).
Proof.
  induction events as [|event events IH]; intros w Href;
    cbn [map handle_all List.concat]; [now rewrite app_nil_r|].
  destruct (onresult_appends event w Href) as [E1 E2].
  assert (Href' : speechRecognitionRef (st (snd (handler (onresult event) w)))
                  <> None).
  { apply (f_equal speechRecognitionRef) in E2.
    cbn [speechRecognitionRef with_userInput] in E2. congruence. }
  destruct (IH _ Href') as [F1 F2]. split.
  - rewrite F1, E1. now rewrite app_assoc.
  - congruence.
Qed.

(** X13.  A click on the microphone while not listening, followed by any
    result events, leaves in the input the final texts of the events in
    order of arrival (what the input held before is discarded, interim
    results are ignored), sets [isListening] and changes nothing else. *)
Theorem capture_collects_final_text (s : State)
    (events : list SpeechRecognitionEvent) :
  speechRecognitionRef s <> None ->
  isListening s = false ->
  let s' := st (handle_all (onClickMic :: map onresult events) (fresh s)) in
  userInput s' = List.concat (map final_text events)
  /\ isListening s' = true
  /\ with_userInput [] s' = with_userInput [] (with_isListening true s).
Proof.
  intros Href Hlis. cbv zeta.
  assert (Hmic : snd (handler onClickMic (fresh s))
                 = {| st := with_isListening true (with_userInput [] s);
                      log := [ (setUserInput [], with_userInput [] s);
                               (recognition_start, with_userInput [] s);
                               (setIsListening true,
                                with_isListening true (with_userInput [] s)) ] |}).
  { cbn [handler]. unfold handleMicClick. run_handler.
    destruct (speechRecognitionRef s); [|congruence].
    cbn [is_null]. rewrite Hlis. run_handler. reflexivity. }
  cbn [handle_all]. rewrite Hmic.
  match goal with
  | |- context [handle_all _ ?w0] =>
      destruct (onresults_append events w0) as [F1 F2]; [exact Href|]
  end.
  cbn [st] in F1, F2. cbn [userInput with_isListening with_userInput] in F1.
  rewrite F1. cbn [app].
  split; [reflexivity|]. split.
  - apply (f_equal isListening) in F2.
    cbn [isListening with_isListening with_userInput] in F2. exact F2.
  - rewrite F2. reflexivity.
Qed.

Lemma truthy_trim u :
  truthy (trim u) = existsb (fun c => negb (isWhiteSpace c)) u.
Proof.
  assert (Hex : existsb (fun c => negb (isWhiteSpace c)) u
                = negb (forallb isWhiteSpace u)).
  { induction u as [|c u IH]; [reflexivity|]. cbn [existsb forallb].
    rewrite IH. now destruct (isWhiteSpace c). }
  rewrite Hex. destruct (forallb isWhiteSpace u) eqn:E.
  - now rewrite (trim_whitespace u E).
  - destruct (trim u) eqn:Et; [|reflexivity].
    apply trim_empty_iff in Et. congruence.
Qed.

(** X15.  A submission is accepted exactly when the text input is enabled
    and the input holds a character that is not whitespace. *)
Theorem accepted_iff_enabled_and_text (s : State) :
  accepted s
  = negb (input_disabled (form (chat_props s)))
    && existsb (fun c => negb (isWhiteSpace c)) (userInput s).
Proof.
  unfold accepted. rewrite truthy_trim. cbn.
  destruct (existsb _ (userInput s)), (isLoading s), (is_null (chat s)),
    (isSpeaking s); reflexivity.
Qed.

Lemma streq_true a b : streq a b = true -> a = b.
Proof. unfold streq. now destruct (list_eq_dec Z.eq_dec a b). Qed.

(** X16.  In every state the [i]-th pane is rendered exactly when the
    [i]-th tab button is selected, at most one pane is rendered, and the chat
    pane gets the state of the component as its props. *)
Theorem panes_follow_tabs (s : State) :
  map (fun pane => negb (is_null pane)) (article s) = map snd (nav s)
  /\ rendered s = selected s
  /\ (rendered s <= 1)%nat
  /\ nth 2 (article s) None
     = (if streq (activeTab s) (lit "chat")
        then Some (ChatInterface (chat_props s)) else None).
Proof.
  unfold rendered, selected, article, nav, chat_props.
  cbn [map tabsData id snd].
  destruct (streq (activeTab s) (lit "implications")) eqn:E1;
    destruct (streq (activeTab s) (lit "thermodynamics")) eqn:E2;
    destruct (streq (activeTab s) (lit "chat")) eqn:E3;
    try (apply streq_true in E1; rewrite E1 in E2, E3;
         (discriminate E2 || discriminate E3));
    try (apply streq_true in E2; rewrite E2 in E3; discriminate E3);
    cbn; repeat split; lia.
Qed.

(** X18.  A payload that is a non-empty text and decodes to no byte at all
    (ASCII whitespace only) is caught as well: [createBuffer] refuses the
    empty buffer, [playAudioResponse] logs the error, clears [isSpeaking] and
    starts no source. *)
Theorem playAudioResponse_empty_audio (o : Collaborators) (text : jsstring)
    (w : World) (base64Audio : jsstring) :
  is_null (aiRef (st w)) = false -> is_null (audioContextRef (st w)) = false ->
  generateContent o text = Some (Some base64Audio) ->
  truthy base64Audio = true ->
  forallb isAsciiWhitespace base64Audio = true ->
  decode base64Audio = Some []
  /\ playAudioResponse o text w
     = (Normal tt,
        {| st := with_isSpeaking false (st w);
           log := log w
                  ++ [ (setIsSpeaking true, with_isSpeaking true (st w));
                       (call_generateContent text, with_isSpeaking true (st w));
                       (console_error (lit "Error generating audio:"),
                        with_isSpeaking true (st w));
                       (setIsSpeaking false, with_isSpeaking false (st w)) ] |}).
Proof.
  intros Hai Hctx Hsyn Htruthy Hws.
  assert (Hdec : decode base64Audio = Some []).
  { unfold decode, atob.
    replace (filter (fun c => negb (isAsciiWhitespace c)) base64Audio)
      with (@nil Z); [reflexivity|].
    clear - Hws. induction base64Audio as [|c r IH]; [reflexivity|].
    cbn [forallb] in Hws. apply andb_prop in Hws. destruct Hws as [Hc Hr].
    cbn [filter]. rewrite Hc. cbn [negb]. now apply IH. }
  split; [exact Hdec|].
  unfold playAudioResponse. run_handler. rewrite Hai, Hctx. cbn [orb].
  rewrite Hsyn. run_handler. rewrite Htruthy, Hdec. run_handler.
  change (decodeAudioData [] 24000 1) with (@None AudioBuffer). run_handler.
  now rewrite <- !app_assoc.
Qed.

Lemma playAudioResponse_empty_audio_witness :
  decode (lit " ") = Some []
  /\ playAudioResponse
       {| sendMessage := fun _ => None;
          generateContent := fun _ => Some (Some (lit " ")) |}
       (lit "T") (fresh (mount full_platform))
     = (Normal tt,
        {| st := with_isSpeaking false (mount full_platform);
           log := [ (setIsSpeaking true, with_isSpeaking true (mount full_platform));
                    (call_generateContent (lit "T"),
                     with_isSpeaking true (mount full_platform));
                    (console_error (lit "Error generating audio:"),
                     with_isSpeaking true (mount full_platform));
                    (setIsSpeaking false,
                     with_isSpeaking false (mount full_platform)) ] |}).
Proof.
  apply (playAudioResponse_empty_audio
           {| sendMessage := fun _ => None;
              generateContent := fun _ => Some (Some (lit " ")) |}
           (lit "T") (fresh (mount full_platform)) (lit " "));
    reflexivity.
Defined.

Lemma playAudioResponse_undecodable_witness :
  playAudioResponse
    {| sendMessage := fun _ => None;
       generateContent := fun _ => Some (Some (lit "AQID")) |}
    (lit "T") (fresh (mount full_platform))
  = (Normal tt,
     {| st := with_isSpeaking false (mount full_platform);
        log := [ (setIsSpeaking true, with_isSpeaking true (mount full_platform));
                 (call_generateContent (lit "T"),
                  with_isSpeaking true (mount full_platform));
                 (console_error (lit "Error generating audio:"),
                  with_isSpeaking true (mount full_platform));
                 (setIsSpeaking false,
                  with_isSpeaking false (mount full_platform)) ] |}).
Proof.
  apply (playAudioResponse_undecodable
           {| sendMessage := fun _ => None;
              generateContent := fun _ => Some (Some (lit "AQID")) |}
           (lit "T") (fresh (mount full_platform)) (lit "AQID"));
    try reflexivity.
  right. exists [1; 2; 3]. split; reflexivity.
Defined.

Lemma no_audio_context_text_only_witness :
  effects
    (run (handleSendMessage
            {| sendMessage := fun _ => Some (lit "T");
               generateContent := fun _ => None |})
       (st (run (handler (onChange (lit "hola")))
              (mount {| new_GoogleGenAI := true; chats_create := true;
                        SpeechRecognition_available := true;
                        new_SpeechRecognition := true;
                        new_AudioContext := false |}))))
  = [ preventDefault;
      setChatHistory
        [ {| role := system; content := initErrorText |};
          {| role := user; content := lit "hola" |} ];
      setUserInput [];
      setIsLoading true;
      call_sendMessage (lit "hola");
      setChatHistory
        [ {| role := system; content := initErrorText |};
          {| role := user; content := lit "hola" |};
          {| role := model; content := lit "T" |} ];
      setIsLoading false ]
  /\ isSpeaking
       (st (run (handleSendMessage
                   {| sendMessage := fun _ => Some (lit "T");
                      generateContent := fun _ => None |})
              (st (run (handler (onChange (lit "hola")))
                     (mount {| new_GoogleGenAI := true; chats_create := true;
                               SpeechRecognition_available := true;
                               new_SpeechRecognition := true;
                               new_AudioContext := false |})))))
     = false.
Proof.
  apply (no_audio_context_text_only
           {| new_GoogleGenAI := true; chats_create := true;
              SpeechRecognition_available := true;
              new_SpeechRecognition := true; new_AudioContext := false |}
           (st (run (handler (onChange (lit "hola")))
                  (mount {| new_GoogleGenAI := true; chats_create := true;
                            SpeechRecognition_available := true;
                            new_SpeechRecognition := true;
                            new_AudioContext := false |})))
           {| sendMessage := fun _ => Some (lit "T");
              generateContent := fun _ => None |}
           (lit "T")); try reflexivity.
  apply reachable_step; [apply reachable_mount|exact I].
Defined.

Lemma failed_session_stays_closed_witness :
  let p := {| new_GoogleGenAI := false; chats_create := true;
              SpeechRecognition_available := true;
              new_SpeechRecognition := true; new_AudioContext := true |} in
  let s := st (run (handler
                      (onSubmit {| sendMessage := fun _ => Some (lit "T");
                                   generateContent := fun _ => None |}))
                 (st (run (handler (onChange (lit "hola"))) (mount p)))) in
  chat s = None
  /\ chatHistory s = [ {| role := system; content := initErrorText |} ]
  /\ input_disabled (form (chat_props s)) = true
  /\ mic_disabled (form (chat_props s)) = true.
Proof.
  cbv zeta.
  apply (failed_session_stays_closed
           {| new_GoogleGenAI := false; chats_create := true;
              SpeechRecognition_available := true;
              new_SpeechRecognition := true; new_AudioContext := true |});
    [reflexivity|].
  apply reachable_step; [|exact I].
  apply reachable_step; [|exact I].
  apply reachable_mount.
Defined.

Lemma no_recognition_no_capture_witness :
  let p := {| new_GoogleGenAI := true; chats_create := true;
              SpeechRecognition_available := false;
              new_SpeechRecognition := true; new_AudioContext := true |} in
  let s := st (run (handler onClickMic) (mount p)) in
  speechRecognitionRef s = None
  /\ isListening s = false
  /\ handleMicClick (fresh s) = (Normal tt, fresh s).
Proof.
  cbv zeta.
  apply (no_recognition_no_capture
           {| new_GoogleGenAI := true; chats_create := true;
              SpeechRecognition_available := false;
              new_SpeechRecognition := true; new_AudioContext := true |});
    [reflexivity|].
  apply reachable_step; [apply reachable_mount|exact I].
Defined.

Lemma capture_end_only_clears_listening_witness :
  let s := st (run (handler (onChange (lit "hola mundo")))
                 (st (run (handler onClickMic) (mount full_platform)))) in
  handler onend (fresh s)
  = (Normal tt,
     {| st := with_isListening false s;
        log := [(setIsListening false, with_isListening false s)] |}).
Proof.
  cbv zeta.
  apply (capture_end_only_clears_listening full_platform); [|discriminate].
  apply reachable_step; [|exact I].
  apply reachable_step; [|exact I].
  apply reachable_mount.
Defined.

Lemma capture_collects_final_text_witness :
  let hola := {| isFinal := true; transcript := lit "hola " |} in
  let mun := {| isFinal := false; transcript := lit "mun" |} in
  let mundo := {| isFinal := true; transcript := lit "mundo" |} in
  let events :=
    [ {| resultIndex := 0; results := [hola] |};
      {| resultIndex := 1; results := [hola; mun] |};
      {| resultIndex := 1; results := [hola; mundo] |} ] in
  let s := with_userInput (lit "antes") (mount full_platform) in
  let s' := st (handle_all (onClickMic :: map onresult events) (fresh s)) in
  userInput s' = List.concat (map final_text events)
  /\ isListening s' = true
  /\ with_userInput [] s' = with_userInput [] (with_isListening true s).
Proof.
  cbv zeta.
  apply (capture_collects_final_text
           (with_userInput (lit "antes") (mount full_platform)));
    [discriminate|reflexivity].
Defined.



End CardProperties.
